(** * Binary STL loader ([src/loaders/binary-stl.ts]): model and properties

    The loader's [parse] reads an [ArrayBuffer] through a [DataView] and
    fills three [Float32Array]s.  The embedding keeps that shape:

    - the buffer is a list of bytes, and every [DataView] getter either
      returns a value or raises [RangeError];
    - a JavaScript number that holds an integer (offsets, counters, the
      values of the integer getters) is an exact integer, all of them far
      below 2^53; a number that may be fractional is an IEEE-754 binary64
      value ([spec_float] with precision 53);
    - a [Float32Array] is a list of binary32 values, created zero-filled;
      storing a number rounds it to binary32 and an index outside the array
      is ignored, as typed arrays do.  Allocation itself is taken to
      succeed.

    [BinaryStl.parse] is the loader as a function of the bytes;
    [Layout.decoded] is the model it returns in closed form, and
    [parse_spec] says when it returns.  [Heap.parse] is the loader once
    more with its objects in a heap, used to state that it changes no
    object it did not create. *)

From Stdlib Require Import ZArith Lia Bool.
From Stdlib Require Import Floats.SpecFloat.
From Stdlib Require Init.Byte Strings.Byte.
From stdpp Require Import base list gmap.

Local Open Scope Z_scope.

(** ** Exceptions *)

Inductive result (A : Type) : Type :=
| Ok (a : A)
| RangeError.
Arguments Ok {A} a.
Arguments RangeError {A}.

#[global] Instance result_ret : MRet result := fun A a => Ok a.
#[global] Instance result_bind : MBind result := fun A B k m =>
  match m with
  | Ok a => k a
  | RangeError => RangeError
  end.

(** [for (let i = i0; i < i0 + n; i++) body] over a loop state. *)
Fixpoint for_range {S : Type} (n : nat) (i : nat)
    (body : nat -> S -> result S) (s : S) : result S :=
  match n with
  | O => Ok s
  | Datatypes.S n' => s' ← body i s; for_range n' (Datatypes.S i) body s'
  end.

(** ** Numbers *)

Abbreviation byte := Byte.byte.
Abbreviation number := spec_float.

Definition byte_val (b : byte) : Z := Z.of_N (Byte.to_N b).

Module Js.

(** An integer as a number (exact below 2^53). *)
Definition of_int (z : Z) : number := binary_normalize 53 1024 z 0 false.

(** The [/] operator. *)
Definition div (x y : number) : number := SFdiv 53 1024 x y.

(** Rounding a number to binary32, as a store into a [Float32Array] does
    ([Math.fround]). *)
Definition fround (x : number) : number :=
  match x with
  | S754_finite s m e => binary_round 24 128 s m e
  | _ => x
  end.

(** A binary32 value as a number (exact). *)
Definition widen (x : number) : number :=
  match x with
  | S754_finite s m e => binary_round 53 1024 s m e
  | _ => x
  end.

(** The binary32 value with bit pattern [x], 0 <= x < 2^32. *)
Definition b32_of_bits (x : Z) : number :=
  let s := Z.testbit x 31 in
  let e := Z.land (Z.shiftr x 23) 255 in
  let m := Z.land x 8388607 in
  if e =? 0 then
    match m with
    | Zpos p => S754_finite s p (-149)
    | _ => S754_zero s
    end
  else if e =? 255 then
    match m with
    | Z0 => S754_infinity s
    | _ => S754_nan
    end
  else
    match m + 8388608 with
    | Zpos p => S754_finite s p (e - 150)
    | _ => S754_nan
    end.

(** [ToInt32], and the operators [&] and [>>] on numbers that hold
    integers. *)
Definition to_int32 (z : Z) : Z := (z + 2147483648) mod 4294967296 - 2147483648.
Definition and (x y : Z) : Z := Z.land (to_int32 x) (to_int32 y).
Definition shr (x y : Z) : Z := Z.shiftr (to_int32 x) (y mod 32).

(** [new Float32Array(n)] and [a[i] = x]. *)
Definition Float32Array (n : nat) : list number := replicate n (S754_zero false).
Definition store (a : list number) (i : nat) (x : number) : list number :=
  <[i := fround x]> a.

End Js.

(** ** DataView *)

Module DataView.

(** Little-endian value of a run of bytes. *)
Fixpoint le_value (bs : list byte) : Z :=
  match bs with
  | [] => 0
  | b :: bs' => byte_val b + 256 * le_value bs'
  end.

(** The [n] bytes at [off]; a view that does not fit raises. *)
Definition view (d : list byte) (off n : nat) : result (list byte) :=
  if decide (off + n <= length d)%nat then Ok (take n (drop off d))
  else RangeError.

Definition getUint (n : nat) (d : list byte) (off : nat) (littleEndian : bool)
  : result Z :=
  bs ← view d off n;
  Ok (le_value (if littleEndian then bs else reverse bs)).

Definition getUint8 (d : list byte) (off : nat) : result Z := getUint 1 d off true.
Definition getUint16 := getUint 2.
Definition getUint32 := getUint 4.

(** The binary32 value stored at [off]. *)
Definition float32_at (d : list byte) (off : nat) (littleEndian : bool)
  : result number :=
  bits ← getUint32 d off littleEndian; Ok (Js.b32_of_bits bits).

Definition getFloat32 (d : list byte) (off : nat) (littleEndian : bool)
  : result number :=
  x ← float32_at d off littleEndian; Ok (Js.widen x).

End DataView.

(** ** The loader *)

Record ModelData := {
  hasColors : bool;
  position : list number;
  normals : list number;
  colors : option (list number);
  alpha : option number
}.

Module BinaryStl.
Import DataView.

(** The variables the header loop assigns. *)
Record header := {
  h_hasColors : bool;
  h_colors : option (list number);
  h_defaultR : number;
  h_defaultG : number;
  h_defaultB : number;
  h_alpha : number
}.

Definition header_init : header :=
  {| h_hasColors := false; h_colors := None;
     h_defaultR := Js.of_int 0; h_defaultG := Js.of_int 0;
     h_defaultB := Js.of_int 0; h_alpha := Js.of_int 0 |}.

(** Body of the header loop (source lines 21 to 33). *)
Definition header_step (reader : list byte) (faces : nat) (index : nat)
    (h : header) : result header :=
  colo ← getUint32 reader index false;
  if colo =? 0x434F4C4F then
    c4 ← getUint8 reader (index + 4);
    if c4 =? 0x52 then
      c5 ← getUint8 reader (index + 5);
      if c5 =? 0x3D then
        cr ← getUint8 reader (index + 6);
        cg ← getUint8 reader (index + 7);
        cb ← getUint8 reader (index + 8);
        ca ← getUint8 reader (index + 9);
        Ok {| h_hasColors := true;
              h_colors := Some (Js.Float32Array (faces * 3 * 3));
              h_defaultR := Js.div (Js.of_int cr) (Js.of_int 255);
              h_defaultG := Js.div (Js.of_int cg) (Js.of_int 255);
              h_defaultB := Js.div (Js.of_int cb) (Js.of_int 255);
              h_alpha := Js.div (Js.of_int ca) (Js.of_int 255) |}
      else Ok h
    else Ok h
  else Ok h.

Definition scan_header (reader : list byte) (faces : nat) : result header :=
  for_range (80 - 10) 0 (header_step reader faces) header_init.

(** The variables the facet loop assigns. *)
Record mesh := {
  vertices : list number;
  m_normals : list number;
  m_colors : option (list number);
  m_r : number;
  m_g : number;
  m_b : number
}.

Definition dataOffset : nat := 84.
Definition faceLength : nat := 12 * 4 + 2.

(** Body of the vertex loop (source lines 74 to 89). *)
Definition vertex_step (reader : list byte) (face start : nat)
    (normalX normalY normalZ : number) (i : nat) (m : mesh) : result mesh :=
  let vertexstart := (start + i * 12)%nat in
  let componentIdx := ((face * 3 * 3) + ((i - 1) * 3))%nat in
  x ← getFloat32 reader vertexstart true;
  let vs := Js.store (vertices m) componentIdx x in
  y ← getFloat32 reader (vertexstart + 4) true;
  let vs := Js.store vs (componentIdx + 1) y in
  z ← getFloat32 reader (vertexstart + 8) true;
  let vs := Js.store vs (componentIdx + 2) z in
  let ns := Js.store (m_normals m) componentIdx normalX in
  let ns := Js.store ns (componentIdx + 1) normalY in
  let ns := Js.store ns (componentIdx + 2) normalZ in
  let cs :=
    match m_colors m with
    | Some cs =>
        let cs := Js.store cs componentIdx (m_r m) in
        let cs := Js.store cs (componentIdx + 1) (m_g m) in
        Some (Js.store cs (componentIdx + 2) (m_b m))
    | None => None
    end in
  Ok {| vertices := vs; m_normals := ns; m_colors := cs;
        m_r := m_r m; m_g := m_g m; m_b := m_b m |}.

(** The color of a facet (source lines 50 to 70): [None] when there is no
    color array, so that r, g and b keep their values. *)
Definition facet_color (reader : list byte) (start : nat)
    (defaultR defaultG defaultB : number) (m : mesh) : result mesh :=
  match m_colors m with
  | Some _ =>
      packedColor ← getUint16 reader (start + 48) true;
      if Js.and packedColor 0x8000 =? 0 then
        Ok {| vertices := vertices m; m_normals := m_normals m;
              m_colors := m_colors m;
              m_r := Js.div (Js.of_int (Js.and packedColor 0x1F)) (Js.of_int 31);
              m_g := Js.div (Js.of_int (Js.and (Js.shr packedColor 5) 0x1F))
                       (Js.of_int 31);
              m_b := Js.div (Js.of_int (Js.and (Js.shr packedColor 10) 0x1F))
                       (Js.of_int 31) |}
      else
        Ok {| vertices := vertices m; m_normals := m_normals m;
              m_colors := m_colors m;
              m_r := defaultR; m_g := defaultG; m_b := defaultB |}
  | None => Ok m
  end.

(** Body of the facet loop (source lines 45 to 91). *)
Definition face_step (reader : list byte)
    (defaultR defaultG defaultB : number) (face : nat) (m : mesh)
  : result mesh :=
  let start := (dataOffset + face * faceLength)%nat in
  normalX ← getFloat32 reader start true;
  normalY ← getFloat32 reader (start + 4) true;
  normalZ ← getFloat32 reader (start + 8) true;
  m ← facet_color reader start defaultR defaultG defaultB m;
  for_range 3 1 (vertex_step reader face start normalX normalY normalZ) m.

Definition parse (data : list byte) : result ModelData :=
  let reader := data in
  faces ← getUint32 reader 80 true;
  let faces := Z.to_nat faces in
  h ← scan_header reader faces;
  let m0 := {| vertices := Js.Float32Array (faces * 3 * 3);
               m_normals := Js.Float32Array (faces * 3 * 3);
               m_colors := h_colors h;
               m_r := Js.of_int 0; m_g := Js.of_int 0; m_b := Js.of_int 0 |} in
  m ← for_range faces 0
         (face_step reader (h_defaultR h) (h_defaultG h) (h_defaultB h)) m0;
  Ok {| hasColors := h_hasColors h;
        position := vertices m;
        normals := m_normals m;
        colors := if h_hasColors h then m_colors m else None;
        alpha := if h_hasColors h
                 then match m_colors m with
                      | Some _ => Some (h_alpha h)
                      | None => None
                      end
                 else None |}.

End BinaryStl.

(** ** Reading the loader's result off the buffer

    Closed forms used to state what [parse] returns: the color marker of
    the header, the values of a facet record and the number of bytes the
    loader reads. *)

#[global] Instance byte_eq_dec : EqDecision byte := Byte.byte_eq_dec.

Module Layout.
Import DataView.

(** The six bytes 'C' 'O' 'L' 'O' 'R' '='. *)
Definition marker : list byte :=
  [Byte.x43; Byte.x4f; Byte.x4c; Byte.x4f; Byte.x52; Byte.x3d].

(** The full marker stands at offset [i]. *)
Definition marker_at (d : list byte) (i : nat) : Prop :=
  take 6 (drop i d) = marker.

#[global] Instance marker_at_dec d i : Decision (marker_at d i).
Proof. unfold marker_at. apply _. Defined.

Definition markerb (d : list byte) (i : nat) : bool :=
  bool_decide (marker_at d i).

(** The rightmost marker offset below [k], if any. *)
Fixpoint last_marker_below (d : list byte) (k : nat) : option nat :=
  match k with
  | O => None
  | S k' => if markerb d k' then Some k' else last_marker_below d k'
  end.

Definition last_marker (d : list byte) : option nat := last_marker_below d 70.

(** Unsigned little-endian value and binary32 value at an offset, for
    offsets known to be in range. *)
Definition uint_at (n : nat) (d : list byte) (off : nat) : Z :=
  le_value (take n (drop off d)).

Definition f32_at (d : list byte) (off : nat) : number :=
  Js.b32_of_bits (uint_at 4 d off).

Definition faces_of (d : list byte) : nat := Z.to_nat (uint_at 4 d 80).

(** A header byte over 255, as the loader computes the default color. *)
Definition unit_of_byte (d : list byte) (off : nat) : number :=
  Js.div (Js.of_int (uint_at 1 d off)) (Js.of_int 255).

(** The header variables when the last marker is [om]. *)
Definition header_of (d : list byte) (faces : nat) (om : option nat)
  : BinaryStl.header :=
  match om with
  | Some i =>
      {| BinaryStl.h_hasColors := true;
         BinaryStl.h_colors := Some (Js.Float32Array (faces * 3 * 3));
         BinaryStl.h_defaultR := unit_of_byte d (i + 6);
         BinaryStl.h_defaultG := unit_of_byte d (i + 7);
         BinaryStl.h_defaultB := unit_of_byte d (i + 8);
         BinaryStl.h_alpha := unit_of_byte d (i + 9) |}
  | None => BinaryStl.header_init
  end.

Definition record_start (f : nat) : nat := 84 + f * 50.

Definition triple_at (d : list byte) (off : nat) : list number :=
  [f32_at d off; f32_at d (off + 4); f32_at d (off + 8)].

Definition facet_positions (d : list byte) (f : nat) : list number :=
  triple_at d (record_start f + 12) ++ triple_at d (record_start f + 24)
  ++ triple_at d (record_start f + 36).

Definition facet_normals (d : list byte) (f : nat) : list number :=
  triple_at d (record_start f) ++ triple_at d (record_start f)
  ++ triple_at d (record_start f).

(** The 5-bit field of a packed color at bit [sh], over 31. *)
Definition field5 (packed sh : Z) : number :=
  Js.div (Js.of_int (Z.land (Z.shiftr packed sh) 31)) (Js.of_int 31).

(** The r, g, b of facet [f] before they are stored. *)
Definition facet_rgb (d : list byte) (dr dg db : number) (f : nat)
  : number * number * number :=
  let packed := uint_at 2 d (record_start f + 48) in
  if Z.testbit packed 15 then (dr, dg, db)
  else (field5 packed 0, field5 packed 5, field5 packed 10).

Definition facet_colors (d : list byte) (dr dg db : number) (f : nat)
  : list number :=
  let '(r, g, b) := facet_rgb d dr dg db f in
  let c := [Js.fround r; Js.fround g; Js.fround b] in c ++ c ++ c.

(** The three stores of one vertex into one array. *)
Definition store3 (a : list number) (k : nat) (x y z : number) : list number :=
  Js.store (Js.store (Js.store a k x) (k + 1) y) (k + 2) z.

(** The per-facet runs of the facets below [n], in order. *)
Definition gather (g : nat -> list number) (n : nat) : list number :=
  flat_map g (seq 0 n).

(** Loop invariant of the facet loop: the facets below [f] are written,
    the [n] facets from [f] on are still zero. *)
Definition filled (g : nat -> list number) (f n : nat) (a : list number) : Prop :=
  a = gather g f ++ replicate (n * 3 * 3) (S754_zero false).

Definition mesh_inv (d : list byte) (dr dg db : number) (colored : bool)
    (f n : nat) (m : BinaryStl.mesh) : Prop :=
  filled (facet_positions d) f n (BinaryStl.vertices m) /\
  filled (facet_normals d) f n (BinaryStl.m_normals m) /\
  if colored
  then exists cs, BinaryStl.m_colors m = Some cs
                  /\ filled (facet_colors d dr dg db) f n cs
  else BinaryStl.m_colors m = None.

(** Bytes of a record the loader reads. *)
Definition face_bytes (colored : bool) : nat := if colored then 50 else 48.

(** Bytes the loader reads: the header and count, the records before the
    last in full, and the last record without its color word unless the
    header declared colors. *)
Definition required (faces : nat) (colored : bool) : nat :=
  match faces with
  | O => 84
  | S k => record_start k + face_bytes colored
  end.

(** The header declares colors. *)
Definition colored (d : list byte) : bool :=
  match last_marker d with Some _ => true | None => false end.

(** The model [parse] returns when the buffer holds [required] bytes. *)
Definition decoded (d : list byte) : ModelData :=
  let faces := faces_of d in
  let h := header_of d faces (last_marker d) in
  {| hasColors := BinaryStl.h_hasColors h;
     position := gather (facet_positions d) faces;
     normals := gather (facet_normals d) faces;
     colors :=
       if BinaryStl.h_hasColors h
       then Some (gather (facet_colors d (BinaryStl.h_defaultR h)
                            (BinaryStl.h_defaultG h) (BinaryStl.h_defaultB h))
                    faces)
       else None;
     alpha :=
       if BinaryStl.h_hasColors h then Some (BinaryStl.h_alpha h) else None |}.

End Layout.

(** ** The loader over a heap

    [parse] once more, with the objects it handles kept in a heap: the
    input [ArrayBuffer] is an object the caller owns, each
    [new Float32Array] allocates a fresh object and each element store
    updates the object in place.  The local numbers (r, g, b, the header
    defaults) stay local.  A computation maps a heap to the heap it leaves
    and a value or an exception; it has no outcome where it would use a
    location that holds no object of the kind the types promise. *)

Module Heap.

Inductive object :=
| ArrayBuffer (bytes : list byte)
| Float32Array (elems : list number).

Abbreviation loc := nat.
Abbreviation heap := (gmap nat object).

Definition M (A : Type) : Type := heap -> option (heap * result A).

#[global] Instance M_ret : MRet M := fun A a σ => Some (σ, Ok a).
#[global] Instance M_bind : MBind M := fun A B k c σ =>
  match c σ with
  | Some (σ', Ok a) => k a σ'
  | Some (σ', RangeError) => Some (σ', RangeError)
  | None => None
  end.

Fixpoint for_range_h {S : Type} (n : nat) (i : nat)
    (body : nat -> S -> M S) (s : S) : M S :=
  match n with
  | O => mret s
  | Datatypes.S n' => s' ← body i s; for_range_h n' (Datatypes.S i) body s'
  end.

(** [new Float32Array(n)]. *)
Definition new_Float32Array (n : nat) : M loc := fun σ =>
  let l := fresh (dom σ) in
  Some (<[l := Float32Array (Js.Float32Array n)]> σ, Ok l).

(** [a[i] = x]. *)
Definition set_elem (a : loc) (i : nat) (x : number) : M unit := fun σ =>
  match σ !! a with
  | Some (Float32Array elems) =>
      Some (<[a := Float32Array (Js.store elems i x)]> σ, Ok tt)
  | _ => None
  end.

(** A getter of the [DataView] over the buffer at [data]. *)
Definition get {A : Type} (data : loc) (getter : list byte -> result A)
  : M A := fun σ =>
  match σ !! data with
  | Some (ArrayBuffer bytes) => Some (σ, getter bytes)
  | _ => None
  end.

Definition getUint8 (reader : loc) (off : nat) : M Z :=
  get reader (fun bytes => DataView.getUint8 bytes off).
Definition getUint16 (reader : loc) (off : nat) (le : bool) : M Z :=
  get reader (fun bytes => DataView.getUint16 bytes off le).
Definition getUint32 (reader : loc) (off : nat) (le : bool) : M Z :=
  get reader (fun bytes => DataView.getUint32 bytes off le).
Definition getFloat32 (reader : loc) (off : nat) (le : bool) : M number :=
  get reader (fun bytes => DataView.getFloat32 bytes off le).

Record header := {
  h_hasColors : bool;
  h_colors : option loc;
  h_defaultR : number;
  h_defaultG : number;
  h_defaultB : number;
  h_alpha : number
}.

Definition header_init : header :=
  {| h_hasColors := false; h_colors := None;
     h_defaultR := Js.of_int 0; h_defaultG := Js.of_int 0;
     h_defaultB := Js.of_int 0; h_alpha := Js.of_int 0 |}.

Definition header_step (reader : loc) (faces : nat) (index : nat)
    (h : header) : M header :=
  colo ← getUint32 reader index false;
  if colo =? 0x434F4C4F then
    c4 ← getUint8 reader (index + 4);
    if c4 =? 0x52 then
      c5 ← getUint8 reader (index + 5);
      if c5 =? 0x3D then
        colors ← new_Float32Array (faces * 3 * 3);
        cr ← getUint8 reader (index + 6);
        cg ← getUint8 reader (index + 7);
        cb ← getUint8 reader (index + 8);
        ca ← getUint8 reader (index + 9);
        mret {| h_hasColors := true;
                h_colors := Some colors;
                h_defaultR := Js.div (Js.of_int cr) (Js.of_int 255);
                h_defaultG := Js.div (Js.of_int cg) (Js.of_int 255);
                h_defaultB := Js.div (Js.of_int cb) (Js.of_int 255);
                h_alpha := Js.div (Js.of_int ca) (Js.of_int 255) |}
      else mret h
    else mret h
  else mret h.

Definition scan_header (reader : loc) (faces : nat) : M header :=
  for_range_h (80 - 10) 0 (header_step reader faces) header_init.

(** The arrays of the facet loop. *)
Record arrays := {
  a_vertices : loc;
  a_normals : loc;
  a_colors : option loc
}.

Definition rgb : Type := number * number * number.

Definition vertex_step (reader : loc) (a : arrays) (face start : nat)
    (normalX normalY normalZ : number) (c : rgb) (i : nat) (_ : unit)
  : M unit :=
  let vertexstart := (start + i * 12)%nat in
  let componentIdx := ((face * 3 * 3) + ((i - 1) * 3))%nat in
  x ← getFloat32 reader vertexstart true;
  _ ← set_elem (a_vertices a) componentIdx x;
  y ← getFloat32 reader (vertexstart + 4) true;
  _ ← set_elem (a_vertices a) (componentIdx + 1) y;
  z ← getFloat32 reader (vertexstart + 8) true;
  _ ← set_elem (a_vertices a) (componentIdx + 2) z;
  _ ← set_elem (a_normals a) componentIdx normalX;
  _ ← set_elem (a_normals a) (componentIdx + 1) normalY;
  _ ← set_elem (a_normals a) (componentIdx + 2) normalZ;
  match a_colors a with
  | Some cs =>
      _ ← set_elem cs componentIdx c.1.1;
      _ ← set_elem cs (componentIdx + 1) c.1.2;
      set_elem cs (componentIdx + 2) c.2
  | None => mret tt
  end.

Definition facet_color (reader : loc) (a : arrays) (start : nat)
    (defaultR defaultG defaultB : number) (c : rgb) : M rgb :=
  match a_colors a with
  | Some _ =>
      packedColor ← getUint16 reader (start + 48) true;
      if Js.and packedColor 0x8000 =? 0 then
        mret (Js.div (Js.of_int (Js.and packedColor 0x1F)) (Js.of_int 31),
              Js.div (Js.of_int (Js.and (Js.shr packedColor 5) 0x1F))
                (Js.of_int 31),
              Js.div (Js.of_int (Js.and (Js.shr packedColor 10) 0x1F))
                (Js.of_int 31))
      else mret (defaultR, defaultG, defaultB)
  | None => mret c
  end.

Definition face_step (reader : loc) (a : arrays)
    (defaultR defaultG defaultB : number) (face : nat) (c : rgb) : M rgb :=
  let start := (BinaryStl.dataOffset + face * BinaryStl.faceLength)%nat in
  normalX ← getFloat32 reader start true;
  normalY ← getFloat32 reader (start + 4) true;
  normalZ ← getFloat32 reader (start + 8) true;
  c ← facet_color reader a start defaultR defaultG defaultB c;
  _ ← for_range_h 3 1
        (vertex_step reader a face start normalX normalY normalZ c) tt;
  mret c.

(** The returned object: its arrays are references. *)
Record model := {
  r_hasColors : bool;
  r_position : loc;
  r_normals : loc;
  r_colors : option loc;
  r_alpha : option number
}.

Definition parse (data : loc) : M model :=
  let reader := data in
  faces ← getUint32 reader 80 true;
  let faces := Z.to_nat faces in
  h ← scan_header reader faces;
  vertices ← new_Float32Array (faces * 3 * 3);
  normals ← new_Float32Array (faces * 3 * 3);
  let a := {| a_vertices := vertices; a_normals := normals;
              a_colors := h_colors h |} in
  _ ← for_range_h faces 0
        (face_step reader a (h_defaultR h) (h_defaultG h) (h_defaultB h))
        (Js.of_int 0, Js.of_int 0, Js.of_int 0);
  mret {| r_hasColors := h_hasColors h;
          r_position := vertices;
          r_normals := normals;
          r_colors := if h_hasColors h then h_colors h else None;
          r_alpha := if h_hasColors h
                     then match h_colors h with
                          | Some _ => Some (h_alpha h)
                          | None => None
                          end
                     else None |}.

(** The arrays behind a returned object. *)
Definition elems_at (σ : heap) (l : loc) : option (list number) :=
  match σ !! l with
  | Some (Float32Array elems) => Some elems
  | _ => None
  end.

Definition contents (σ : heap) (r : model) : option ModelData :=
  p ← elems_at σ (r_position r);
  n ← elems_at σ (r_normals r);
  match r_colors r with
  | Some l =>
      c ← elems_at σ l;
      Some {| hasColors := r_hasColors r; position := p; normals := n;
              colors := Some c; alpha := r_alpha r |}
  | None =>
      Some {| hasColors := r_hasColors r; position := p; normals := n;
              colors := None; alpha := r_alpha r |}
  end.

(** Every object of [σ] is still there, unchanged, in [σ']. *)
Definition preserved (σ σ' : heap) : Prop :=
  forall l o, σ !! l = Some o -> σ' !! l = Some o.

(** [l] holds a [Float32Array] that did not exist in [σ0]. *)
Definition owns (σ0 σ : heap) (l : loc) (elems : list number) : Prop :=
  σ !! l = Some (Float32Array elems) /\ σ0 !! l = None.

(** The heap holds the arrays of the facet loop at the locations [a],
    each in an object of its own made after [σ0]. *)
Definition holds3 (σ0 σ : heap) (a : arrays)
    (vs ns : list number) (cs : option (list number)) : Prop :=
  owns σ0 σ (a_vertices a) vs
  /\ owns σ0 σ (a_normals a) ns
  /\ a_vertices a <> a_normals a
  /\ match a_colors a, cs with
     | Some l, Some es =>
         owns σ0 σ l es /\ l <> a_vertices a /\ l <> a_normals a
     | None, None => True
     | _, _ => False
     end.

Definition holds (σ0 σ : heap) (a : arrays) (c : rgb) (m : BinaryStl.mesh)
  : Prop :=
  holds3 σ0 σ a (BinaryStl.vertices m) (BinaryStl.m_normals m)
    (BinaryStl.m_colors m)
  /\ c = (BinaryStl.m_r m, BinaryStl.m_g m, BinaryStl.m_b m).

(** The header variables over the heap and those of the pure loader. *)
Definition header_rel (σ0 σ : heap) (hh : header) (h : BinaryStl.header)
  : Prop :=
  h_hasColors hh = BinaryStl.h_hasColors h
  /\ h_defaultR hh = BinaryStl.h_defaultR h
  /\ h_defaultG hh = BinaryStl.h_defaultG h
  /\ h_defaultB hh = BinaryStl.h_defaultB h
  /\ h_alpha hh = BinaryStl.h_alpha h
  /\ match h_colors hh, BinaryStl.h_colors h with
     | Some l, Some es => owns σ0 σ l es
     | None, None => True
     | _, _ => False
     end.

(** Outcomes that agree: both raise, or both return related values. *)
Definition agree {A B : Type} (R : A -> B -> Prop)
    (r : result A) (p : result B) : Prop :=
  match r, p with
  | Ok a, Ok b => R a b
  | RangeError, RangeError => True
  | _, _ => False
  end.

(** Started in [σ], the computation [c] has an outcome that agrees with
    [p] and leaves every object of [σ0] as it was. *)
Definition sim {A B : Type} (σ0 σ : heap) (c : M A) (p : result B)
    (R : heap -> A -> B -> Prop) : Prop :=
  exists σ' r, c σ = Some (σ', r) /\ preserved σ0 σ' /\ agree (R σ') r p.

End Heap.

(** ** Sample buffers *)

Module Samples.

Definition B (n : N) : byte := default Byte.x00 (Byte.of_N n).

Definition le32_zero : list byte := B <$> [0; 0; 0; 0]%N.
(** 1.0f is 0x3F800000. *)
Definition le32_one : list byte := B <$> [0; 0; 128; 63]%N.

(** One facet record without its color word: normal (0,0,1), vertices
    (0,0,0), (1,0,0), (0,1,0). *)
Definition facet_001 : list byte :=
  le32_zero ++ le32_zero ++ le32_one
  ++ le32_zero ++ le32_zero ++ le32_zero
  ++ le32_one ++ le32_zero ++ le32_zero
  ++ le32_zero ++ le32_one ++ le32_zero.

Definition count (n : N) : list byte := B <$> [n; 0; 0; 0]%N.

(** The 134-byte single-triangle file: a header of 80 bytes [fill], the
    count 1 and the record, closed by the color word [a0 a1]. *)
Definition triangle (fill a0 a1 : byte) : list byte :=
  replicate 80 fill ++ count 1 ++ facet_001 ++ [a0; a1].

(** The same file cut after the last vertex, two bytes short. *)
Definition triangle_cut : list byte :=
  replicate 80 Byte.x00 ++ count 1 ++ facet_001.

(** "COLOR=" and four bytes r, g, b, a. *)
Definition color_marker (r g b a : N) : list byte :=
  Layout.marker ++ (B <$> [r; g; b; a]%N).

(** A single-triangle file whose header starts with the gray, opaque
    marker; [lo hi] is the facet's color word. *)
Definition gray_triangle (lo hi : N) : list byte :=
  color_marker 128 128 128 255 ++ replicate 70 Byte.x00
  ++ count 1 ++ facet_001 ++ (B <$> [lo; hi]%N).

(** A single-triangle file with two markers: red at offset 0, blue and
    half transparent at offset 20. *)
Definition two_markers : list byte :=
  color_marker 255 0 0 255 ++ replicate 10 Byte.x00
  ++ color_marker 0 0 255 128 ++ replicate 50 Byte.x00
  ++ count 1 ++ facet_001 ++ (B <$> [0; 128]%N).

(** Headers followed by the count 0. *)
Definition empty_plain : list byte := replicate 80 Byte.x20 ++ count 0.
Definition empty_colored : list byte :=
  replicate 30 Byte.x20 ++ color_marker 10 20 30 51
  ++ replicate 40 Byte.x20 ++ count 0.

(** A [Float32Array] holding the given integers. *)
Definition f32_array (l : list Z) : list number :=
  (λ z, Js.fround (Js.of_int z)) <$> l.

Definition triangle_model : ModelData :=
  {| hasColors := false;
     position := f32_array [0; 0; 0; 1; 0; 0; 0; 1; 0];
     normals := f32_array [0; 0; 1; 0; 0; 1; 0; 0; 1];
     colors := None;
     alpha := None |}.

(** What the gray file decodes to when its facet is pure red. *)
Definition red_model : ModelData :=
  {| hasColors := true;
     position := f32_array [0; 0; 0; 1; 0; 0; 0; 1; 0];
     normals := f32_array [0; 0; 1; 0; 0; 1; 0; 0; 1];
     colors := Some (f32_array [1; 0; 0; 1; 0; 0; 1; 0; 0]);
     alpha := Some (Js.of_int 1) |}.

(** 128/255 as the loader computes and stores it. *)
Definition gray : number := Js.fround (Js.div (Js.of_int 128) (Js.of_int 255)).

Definition gray_model : ModelData :=
  {| hasColors := true;
     position := f32_array [0; 0; 0; 1; 0; 0; 0; 1; 0];
     normals := f32_array [0; 0; 1; 0; 0; 1; 0; 0; 1];
     colors := Some (replicate 9 gray);
     alpha := Some (Js.of_int 1) |}.

(** The two-marker file takes blue and the alpha 128/255 of the marker
    at offset 20. *)
Definition blue_model : ModelData :=
  {| hasColors := true;
     position := f32_array [0; 0; 0; 1; 0; 0; 0; 1; 0];
     normals := f32_array [0; 0; 1; 0; 0; 1; 0; 0; 1];
     colors := Some (f32_array [0; 0; 1; 0; 0; 1; 0; 0; 1]);
     alpha := Some (Js.div (Js.of_int 128) (Js.of_int 255)) |}.

Definition empty_model : ModelData :=
  {| hasColors := false; position := []; normals := [];
     colors := None; alpha := None |}.

Definition empty_colored_model (a : Z) : ModelData :=
  {| hasColors := true; position := []; normals := [];
     colors := Some [];
     alpha := Some (Js.div (Js.of_int a) (Js.of_int 255)) |}.

(** Two heaps that hold the single-triangle file, at different
    locations and next to different objects. *)
Definition heap_a : Heap.heap :=
  {[ 0%nat := Heap.ArrayBuffer (triangle Byte.x00 Byte.x00 Byte.x00) ]}.
Definition heap_b : Heap.heap :=
  <[ 3%nat := Heap.ArrayBuffer (triangle Byte.x00 Byte.x00 Byte.x00) ]>
    {[ 1%nat := Heap.Float32Array (f32_array [7; 7]) ]}.

End Samples.

(** ** The caller and further vocabulary *)

Module Renderer.

(** The vertex count the draw loop of the canvas component hands to
    [gl.drawArrays]: [data.position.length / 3]. *)
Definition vertexCount (data : ModelData) : number :=
  Js.div (Js.of_int (Z.of_nat (length (position data)))) (Js.of_int 3).

End Renderer.

Module Range.

(** 0 <= x <= 1, for a [Float32Array] element and for a number.  The two
    differ in how [spec_float] writes 1. *)
Definition in_unit32 (x : number) : bool :=
  SFleb (S754_zero false) x && SFleb x (Js.fround (Js.of_int 1)).

Definition in_unit64 (x : number) : bool :=
  SFleb (S754_zero false) x && SFleb x (Js.of_int 1).

(** The byte offsets whose content can reach the model: the header up to
    offset 78, the count, and of each record the normal and the vertices,
    with the color word only when the header declares colors. *)
Definition relevant (colored : bool) (k : nat) : bool :=
  if decide (k < 79)%nat then true
  else if decide (k < 80)%nat then false
  else if decide (k < 84)%nat then true
  else if decide ((k - 84) mod 50 < 48)%nat then true
  else colored.

End Range.

Module Edge.

(** A single-triangle file whose marker starts at offset 70, the first
    offset the header loop does not test, and fills the header to its
    last byte. *)
Definition marker_at_70 : list byte :=
  replicate 70 Byte.x00 ++ Samples.color_marker 255 0 0 255
  ++ Samples.count 1 ++ Samples.facet_001 ++ [Byte.x00; Byte.x80].

(** A single-triangle file with the gray, opaque marker at offset 0 and a
    red, half transparent one at offset 20; the facet's color word has
    bit 15 set. *)
Definition gray_then_red : list byte :=
  Samples.color_marker 128 128 128 255 ++ replicate 10 Byte.x00
  ++ Samples.color_marker 255 0 0 128 ++ replicate 50 Byte.x00
  ++ Samples.count 1 ++ Samples.facet_001 ++ [Byte.x00; Byte.x80].

Definition gray_then_red_model : ModelData :=
  {| hasColors := true;
     position := Samples.f32_array [0; 0; 0; 1; 0; 0; 0; 1; 0];
     normals := Samples.f32_array [0; 0; 1; 0; 0; 1; 0; 0; 1];
     colors := Some (Samples.f32_array [1; 0; 0; 1; 0; 0; 1; 0; 0]);
     alpha := Some (Js.div (Js.of_int 128) (Js.of_int 255)) |}.

End Edge.

Section FloatFacts.

Lemma iter_pos_nat {A} (f : A -> A) (p : positive) (x : A) :
SpecFloat.iter_pos f p x = Nat.iter (Pos.to_nat p) f x.
Proof.
revert x; induction p as [p IH|p IH|]; intros x; cbn [SpecFloat.iter_pos].
- rewrite !IH, Pos2Nat.inj_xI. 
  replace (Datatypes.S (2 * Pos.to_nat p)) with (Pos.to_nat p + Datatypes.S (Pos.to_nat p))%nat by lia.
  rewrite Nat.iter_add. f_equal. now rewrite Nat.iter_succ_r.
- rewrite !IH, Pos2Nat.inj_xO.
  replace (2 * Pos.to_nat p)%nat with (Pos.to_nat p + Pos.to_nat p)%nat by lia.
  now rewrite Nat.iter_add.
- reflexivity.
Qed.

Lemma Pos_iter_nat {A} (f : A -> A) (p : positive) (x : A) :
Pos.iter f x p = Nat.iter (Pos.to_nat p) f x.
Proof. apply Pos2Nat.inj_iter. Qed.

Lemma digits2_shift (n : nat) (m : positive) :
Zpos (digits2_pos (Nat.iter n xO m)) = Zpos (digits2_pos m) + Z.of_nat n.
Proof.
induction n as [|n IH]; [simpl; lia|].
rewrite Nat.iter_succ. cbn [digits2_pos]. lia.
Qed.

Lemma shr_shift (n : nat) (m : positive) :
Nat.iter n shr_1 (Build_shr_record (Zpos (Nat.iter n xO m)) false false)
= Build_shr_record (Zpos m) false false.
Proof.
induction n as [|n IH]; [reflexivity|].
rewrite Nat.iter_succ_r. rewrite Nat.iter_succ. exact IH.
Qed.

Lemma digits2_size (p : positive) : digits2_pos p = Pos.size p.
Proof. induction p; simpl; congruence. Qed.

Lemma digits2_le (p : positive) (n : positive) :
Zpos p < 2 ^ Zpos n -> Zpos (digits2_pos p) <= Zpos n.
Proof.
intros H. rewrite digits2_size.
destruct (Z.le_gt_cases (Zpos (Pos.size p)) (Zpos n)) as [|Hgt]; [done|].
exfalso.
pose proof (Pos.size_le p) as Hle.
assert (2 ^ Zpos n * 2 <= 2 ^ Zpos (Pos.size p)).
{ replace (2 ^ Zpos n * 2) with (2 ^ (Zpos n + 1)) by (rewrite Z.pow_add_r; lia).
  apply Z.pow_le_mono_r; lia. }
assert (Zpos (2 ^ Pos.size p) <= Zpos p~0) by (apply Pos2Z.pos_le_pos, Hle).
rewrite Pos2Z.inj_pow in *. lia.
Qed.

Lemma digits2_ge (p : positive) (n : positive) :
2 ^ (Zpos n - 1) <= Zpos p -> Zpos n <= Zpos (digits2_pos p).
Proof.
intros H. rewrite digits2_size.
destruct (Z.le_gt_cases (Zpos n) (Zpos (Pos.size p))) as [|Hgt]; [done|].
exfalso.
pose proof (Pos.size_gt p) as Hlt.
assert (Zpos p < Zpos (2 ^ Pos.size p)) by (apply Pos2Z.pos_lt_pos, Hlt).
rewrite Pos2Z.inj_pow in *.
assert (2 ^ Zpos (Pos.size p) <= 2 ^ (Zpos n - 1)) by (apply Z.pow_le_mono_r; lia).
lia.
Qed.

Lemma fround_widen_finite (s : bool) (m : positive) (e : Z) :
Zpos (digits2_pos m) <= 24 ->
fexp 24 128 (Zpos (digits2_pos m) + e) = e ->
e <= 104 ->
Js.fround (Js.widen (S754_finite s m e)) = S754_finite s m e.
Proof.
intros Hd Hc He.
set (d := Zpos (digits2_pos m)) in *.
assert (Hlo : -149 <= e) by (unfold fexp, emin in Hc; lia).
assert (0 < d) by (subst d; lia).
unfold Js.widen, binary_round.
assert (Hf64 : fexp 53 1024 (d + e) = d + e - 53) by (unfold fexp, emin; lia).
fold d. rewrite Hf64. unfold shl_align.
replace (d + e - 53 - e) with (d - 53) by lia.
destruct (d - 53) as [|k|k] eqn:Hk; try lia.
rewrite Pos_iter_nat.
set (n := Pos.to_nat k).
assert (Hn : Z.of_nat n = 53 - d) by (subst n; rewrite positive_nat_Z; lia).
set (mz := Nat.iter n xO m).
assert (Hdz : Zpos (digits2_pos mz) = 53) by (subst mz; rewrite digits2_shift; fold d; lia).
unfold binary_round_aux, shr_fexp. cbn [Zdigits2 shr_record_of_loc].
rewrite Hdz.
assert (Hf64' : fexp 53 1024 (53 + (d + e - 53)) = d + e - 53) by (unfold fexp, emin; lia).
rewrite Hf64', Z.sub_diag. cbn [shr shr_m loc_of_shr_record round_nearest_even Zdigits2].
rewrite Hdz, Hf64', Z.sub_diag. cbn [shr shr_m].
replace (d + e - 53 <=? 1024 - 53) with true by (symmetry; apply Z.leb_le; lia).
(* second rounding *)
unfold Js.fround, binary_round. rewrite Hdz.
replace (53 + (d + e - 53)) with (d + e) by lia. rewrite Hc.
unfold shl_align.
replace (e - (d + e - 53)) with (Zpos k) by lia.
unfold binary_round_aux, shr_fexp. cbn [Zdigits2 shr_record_of_loc].
rewrite Hdz. replace (53 + (d + e - 53)) with (d + e) by lia. rewrite Hc.
replace (e - (d + e - 53)) with (Zpos k) by lia.
cbn [shr]. rewrite iter_pos_nat. fold n. subst mz. rewrite shr_shift.
cbn [shr_m loc_of_shr_record round_nearest_even Zdigits2 shr_record_of_loc].
fold d. replace (d + e - 53 + Zpos k) with e by lia. rewrite Hc, Z.sub_diag.
cbn [shr shr_m].
replace (e <=? 128 - 24) with true by (symmetry; apply Z.leb_le; lia).
reflexivity.
Qed.

End FloatFacts.

Lemma land_mask_bounds (z : Z) (n : Z) :
  0 <= n -> 0 <= Z.land z (Z.ones n) < 2 ^ n.
Proof. intros Hn. rewrite Z.land_ones by done. apply Z.mod_pos_bound. lia. Qed.

Lemma fround_widen_b32 (z : Z) :
  Js.fround (Js.widen (Js.b32_of_bits z)) = Js.b32_of_bits z.
Proof.
  unfold Js.b32_of_bits.
  pose proof (land_mask_bounds z 23 ltac:(lia)) as Hm.
  pose proof (land_mask_bounds (Z.shiftr z 23) 8 ltac:(lia)) as He.
  change (Z.ones 23) with 8388607 in Hm. change (Z.ones 8) with 255 in He.
  change (2 ^ 23) with 8388608 in Hm. change (2 ^ 8) with 256 in He.
  set (m := Z.land z 8388607) in *. set (e := Z.land (Z.shiftr z 23) 255) in *.
  set (s := Z.testbit z 31).
  destruct (Z.eqb_spec e 0) as [He0|He0].
  - destruct m as [|p|p] eqn:Hp; try reflexivity.
    assert (Zpos (digits2_pos p) <= 23) by (apply digits2_le; change (2 ^ 23) with 8388608; lia).
    apply fround_widen_finite; [lia| unfold fexp, emin; lia | lia].
  - destruct (Z.eqb_spec e 255) as [He1|He1].
    + destruct m; reflexivity.
    + destruct (m + 8388608) as [|p|p] eqn:Hp; try reflexivity.
      assert (Zpos (digits2_pos p) <= 24) by (apply digits2_le; change (2 ^ 24) with 16777216; lia).
      assert (24 <= Zpos (digits2_pos p)) by (apply digits2_ge; change (2 ^ (24 - 1)) with 8388608; lia).
      apply fround_widen_finite; [lia| unfold fexp, emin; lia | lia].
Qed.

(** ** Facts about the getters *)

Section Readers.
Import DataView Layout.

Lemma byte_val_bounds (b : byte) : 0 <= byte_val b < 256.
Proof. unfold byte_val. pose proof (Byte.to_N_bounded b). lia. Qed.

Lemma byte_val_inj (b b' : byte) : byte_val b = byte_val b' -> b = b'.
Proof.
  unfold byte_val. intros H%Z2N.inj_iff; [|lia..].
  rewrite !N2Z.id in H.
  assert (Hs : Some b = Some b') by (rewrite <- !Byte.of_to_N; now rewrite H).
  now injection Hs.
Qed.

Lemma view_ok (d : list byte) (off n : nat) :
  (off + n <= length d)%nat -> view d off n = Ok (take n (drop off d)).
Proof. intros H. unfold view. now rewrite decide_True. Qed.

Lemma view_err (d : list byte) (off n : nat) :
  (length d < off + n)%nat -> view d off n = RangeError.
Proof. intros H. unfold view. rewrite decide_False; [done|lia]. Qed.

Lemma getUint_ok (n : nat) (d : list byte) (off : nat) :
  (off + n <= length d)%nat -> getUint n d off true = Ok (uint_at n d off).
Proof. intros H. unfold getUint. now rewrite view_ok. Qed.

Lemma getUint_err (n : nat) (d : list byte) (off : nat) (le : bool) :
  (length d < off + n)%nat -> getUint n d off le = RangeError.
Proof. intros H. unfold getUint. now rewrite view_err. Qed.

Lemma float32_at_ok (d : list byte) (off : nat) :
  (off + 4 <= length d)%nat -> float32_at d off true = Ok (f32_at d off).
Proof. intros H. unfold float32_at, getUint32. now rewrite getUint_ok. Qed.

Lemma getFloat32_ok (d : list byte) (off : nat) :
  (off + 4 <= length d)%nat ->
  getFloat32 d off true = Ok (Js.widen (f32_at d off)).
Proof. intros H. unfold getFloat32. now rewrite float32_at_ok. Qed.

Lemma getFloat32_err (d : list byte) (off : nat) (le : bool) :
  (length d < off + 4)%nat -> getFloat32 d off le = RangeError.
Proof.
  intros H. unfold getFloat32, float32_at, getUint32. now rewrite getUint_err.
Qed.

Lemma le_value_bounds (bs : list byte) :
  0 <= le_value bs < 256 ^ Z.of_nat (length bs).
Proof.
  induction bs as [|b bs IH]; [simpl; lia|].
  cbn [le_value length]. rewrite Nat2Z.inj_succ, Z.pow_succ_r by lia.
  pose proof (byte_val_bounds b). lia.
Qed.

Lemma uint_at_bounds (n : nat) (d : list byte) (off : nat) :
  0 <= uint_at n d off < 256 ^ Z.of_nat n.
Proof.
  unfold uint_at. pose proof (le_value_bounds (take n (drop off d))) as H.
  assert (length (take n (drop off d)) <= n)%nat by (rewrite length_take; lia).
  assert (256 ^ Z.of_nat (length (take n (drop off d))) <= 256 ^ Z.of_nat n)
    by (apply Z.pow_le_mono_r; lia).
  lia.
Qed.

Lemma take_drop_cons (d : list byte) (i n : nat) (b : byte) :
  d !! i = Some b -> take (S n) (drop i d) = b :: take n (drop (S i) d).
Proof. intros H. now rewrite (drop_S _ _ _ H). Qed.

(** Storing a value read from the buffer keeps it. *)
Lemma fround_widen_f32 (d : list byte) (off : nat) :
  Js.fround (Js.widen (f32_at d off)) = f32_at d off.
Proof. apply fround_widen_b32. Qed.

End Readers.

(** ** The header loop *)

Section Header.
Import DataView Layout BinaryStl.

(** The loader's three-part test is the test for the six marker bytes. *)
Lemma header_step_spec (d : list byte) (faces i : nat) (h : header) :
  (i + 10 <= length d)%nat ->
  header_step d faces i h
  = Ok (if markerb d i then header_of d faces (Some i) else h).
Proof.
  intros Hlen.
  destruct (lookup_lt_is_Some_2 d i ltac:(lia)) as [b0 H0].
  destruct (lookup_lt_is_Some_2 d (S i) ltac:(lia)) as [b1 H1].
  destruct (lookup_lt_is_Some_2 d (S (S i)) ltac:(lia)) as [b2 H2].
  destruct (lookup_lt_is_Some_2 d (S (S (S i))) ltac:(lia)) as [b3 H3].
  destruct (lookup_lt_is_Some_2 d (S (S (S (S i)))) ltac:(lia)) as [b4 H4].
  destruct (lookup_lt_is_Some_2 d (S (S (S (S (S i))))) ltac:(lia)) as [b5 H5].
  assert (Hm : take 6 (drop i d) = [b0; b1; b2; b3; b4; b5]).
  { rewrite (take_drop_cons _ _ _ _ H0), (take_drop_cons _ _ _ _ H1),
      (take_drop_cons _ _ _ _ H2), (take_drop_cons _ _ _ _ H3),
      (take_drop_cons _ _ _ _ H4), (take_drop_cons _ _ _ _ H5).
    now rewrite take_0. }
  unfold header_step, getUint32, getUint8, getUint.
  rewrite !view_ok by lia. cbn [mbind result_bind].
  rewrite (take_drop_cons _ _ _ _ H0), (take_drop_cons _ _ _ _ H1),
    (take_drop_cons _ _ _ _ H2), (take_drop_cons _ _ _ _ H3), take_0.
  replace (i + 4)%nat with (S (S (S (S i)))) by lia.
  replace (i + 5)%nat with (S (S (S (S (S i))))) by lia.
  rewrite (take_drop_cons _ _ _ _ H4), (take_drop_cons _ _ _ _ H5), !take_0.
  cbn [reverse rev_append le_value].
  pose proof (byte_val_bounds b0). pose proof (byte_val_bounds b1).
  pose proof (byte_val_bounds b2). pose proof (byte_val_bounds b3).
  destruct (markerb d i) eqn:Hd; unfold markerb in Hd;
    [apply bool_decide_eq_true in Hd|apply bool_decide_eq_false in Hd];
    unfold marker_at, marker in Hd; rewrite Hm in Hd.
  - injection Hd as -> -> -> -> -> ->. reflexivity.
  - destruct (Z.eqb_spec (byte_val b3 + 256 * (byte_val b2 + 256 *
        (byte_val b1 + 256 * (byte_val b0 + 256 * 0)))) 0x434F4C4F) as [E|E];
      [|reflexivity].
    destruct (Z.eqb_spec (byte_val b4 + 256 * 0) 0x52) as [E4|E4]; [|reflexivity].
    destruct (Z.eqb_spec (byte_val b5 + 256 * 0) 0x3D) as [E5|E5]; [|reflexivity].
    exfalso. apply Hd.
    assert (b0 = Byte.x43) as -> by (apply byte_val_inj; change (byte_val Byte.x43) with 67; lia).
    assert (b1 = Byte.x4f) as -> by (apply byte_val_inj; change (byte_val Byte.x4f) with 79; lia).
    assert (b2 = Byte.x4c) as -> by (apply byte_val_inj; change (byte_val Byte.x4c) with 76; lia).
    assert (b3 = Byte.x4f) as -> by (apply byte_val_inj; change (byte_val Byte.x4f) with 79; lia).
    assert (b4 = Byte.x52) as -> by (apply byte_val_inj; change (byte_val Byte.x52) with 82; lia).
    assert (b5 = Byte.x3d) as -> by (apply byte_val_inj; change (byte_val Byte.x3d) with 61; lia).
    reflexivity.
Qed.

Lemma scan_from (d : list byte) (faces n i : nat) :
  (i + n + 9 <= length d)%nat ->
  for_range n i (header_step d faces) (header_of d faces (last_marker_below d i))
  = Ok (header_of d faces (last_marker_below d (i + n))).
Proof.
  revert i; induction n as [|n IH]; intros i Hlen.
  - now rewrite Nat.add_0_r.
  - cbn [for_range]. rewrite header_step_spec by lia. cbn [mbind result_bind].
    replace (i + S n)%nat with (S i + n)%nat by lia.
    rewrite <- IH by lia. cbn [last_marker_below].
    now destruct (markerb d i).
Qed.

Lemma scan_header_spec (d : list byte) (faces : nat) :
  (79 <= length d)%nat ->
  scan_header d faces = Ok (header_of d faces (last_marker d)).
Proof.
  intros Hlen. unfold scan_header, last_marker.
  change (80 - 10)%nat with (0 + 70)%nat. now apply (scan_from d faces 70 0).
Qed.

End Header.

(** ** The facet loop *)

Section Facets.
Import DataView Layout BinaryStl.

(** *** Integer operators on a 16-bit value *)

Lemma to_int32_small (z : Z) : 0 <= z < 2147483648 -> Js.to_int32 z = z.
Proof. intros H. unfold Js.to_int32. rewrite Z.mod_small; lia. Qed.

Lemma shiftr_bounds (p n : Z) : 0 <= p < 65536 -> 0 <= n -> 0 <= Z.shiftr p n < 65536.
Proof.
  intros Hp Hn. rewrite Z.shiftr_div_pow2 by done.
  assert (0 < 2 ^ n) by (apply Z.pow_pos_nonneg; lia).
  split; [apply Z.div_pos; lia|].
  apply Z.le_lt_trans with p; [|lia]. apply Z.div_le_upper_bound; nia.
Qed.

Lemma field_mask (p sh : Z) :
  0 <= p < 65536 -> 0 <= sh < 32 ->
  Js.and (Js.shr p sh) 0x1F = Z.land (Z.shiftr p sh) 31.
Proof.
  intros Hp Hs. unfold Js.and, Js.shr.
  rewrite (to_int32_small p), (Z.mod_small sh), (to_int32_small 31) by lia.
  rewrite to_int32_small; [done|]. pose proof (shiftr_bounds p sh); lia.
Qed.

Lemma field_mask_0 (p : Z) : 0 <= p < 65536 -> Js.and p 0x1F = Z.land (Z.shiftr p 0) 31.
Proof.
  intros Hp. unfold Js.and. rewrite (to_int32_small p), (to_int32_small 31) by lia.
  now rewrite Z.shiftr_0_r.
Qed.

Lemma flag_test (p : Z) :
  0 <= p < 65536 -> (Js.and p 0x8000 =? 0) = negb (Z.testbit p 15).
Proof.
  intros Hp. unfold Js.and. rewrite (to_int32_small p), (to_int32_small 32768) by lia.
  assert (E : Z.land p 32768 = if Z.testbit p 15 then 32768 else 0).
  { apply Z.bits_inj'. intros n Hn. rewrite Z.land_spec.
    change 32768 with (2 ^ 15). rewrite Z.pow2_bits_eqb by lia.
    destruct (Z.eqb_spec 15 n) as [<-|Hne].
    - destruct (Z.testbit p 15); [now rewrite Z.pow2_bits_true|now rewrite Z.bits_0].
    - rewrite andb_false_r.
      destruct (Z.testbit p 15); [now rewrite Z.pow2_bits_false|now rewrite Z.bits_0]. }
  rewrite E. now destruct (Z.testbit p 15).
Qed.

(** *** Stores *)

Lemma store9_app (P rest : list number) (k : nat) (a0 a1 a2 a3 a4 a5 a6 a7 a8 : number)
    (x0 x1 x2 x3 x4 x5 x6 x7 x8 : number) :
  length P = (k * 3 * 3)%nat ->
  store3 (store3 (store3 (P ++ a0 :: a1 :: a2 :: a3 :: a4 :: a5 :: a6 :: a7 :: a8 :: rest)
                    (k * 3 * 3 + (1 - 1) * 3) x0 x1 x2)
            (k * 3 * 3 + (2 - 1) * 3) x3 x4 x5)
    (k * 3 * 3 + (3 - 1) * 3) x6 x7 x8
  = P ++ [Js.fround x0; Js.fround x1; Js.fround x2; Js.fround x3; Js.fround x4;
          Js.fround x5; Js.fround x6; Js.fround x7; Js.fround x8] ++ rest.
Proof.
  intros <-. unfold store3, Js.store. cbn [Nat.sub Nat.mul Nat.add].
  rewrite Nat.add_0_r, <- !Nat.add_assoc. cbn [Nat.add].
  rewrite (insert_app_r_alt P _ (length P)) by lia. rewrite Nat.sub_diag.
  now rewrite !insert_app_r.
Qed.

Lemma replicate_9 (n : nat) (z : number) :
  replicate (S n * 3 * 3) z = [z; z; z; z; z; z; z; z; z] ++ replicate (n * 3 * 3) z.
Proof. reflexivity. Qed.

(** *** One vertex, one facet *)

Lemma vertex_step_ok (d : list byte) (face start i : nat) (nx ny nz : number)
    (m : mesh) :
  (start + i * 12 + 12 <= length d)%nat ->
  vertex_step d face start nx ny nz i m
  = Ok {| vertices :=
            store3 (vertices m) (face * 3 * 3 + (i - 1) * 3)
              (Js.widen (f32_at d (start + i * 12)))
              (Js.widen (f32_at d (start + i * 12 + 4)))
              (Js.widen (f32_at d (start + i * 12 + 8)));
          m_normals := store3 (m_normals m) (face * 3 * 3 + (i - 1) * 3) nx ny nz;
          m_colors :=
            (λ cs, store3 cs (face * 3 * 3 + (i - 1) * 3) (m_r m) (m_g m) (m_b m))
              <$> m_colors m;
          m_r := m_r m; m_g := m_g m; m_b := m_b m |}.
Proof.
  intros Hlen. unfold vertex_step. rewrite !getFloat32_ok by lia.
  cbn [mbind result_bind]. now destruct (m_colors m).
Qed.

Lemma facet_color_none (d : list byte) (start : nat) (dr dg db : number) (m : mesh) :
  m_colors m = None -> facet_color d start dr dg db m = Ok m.
Proof. intros H. unfold facet_color. now rewrite H. Qed.

Lemma facet_color_some (d : list byte) (f : nat) (dr dg db : number) (m : mesh) :
  is_Some (m_colors m) ->
  (record_start f + 50 <= length d)%nat ->
  facet_color d (record_start f) dr dg db m
  = Ok {| vertices := vertices m; m_normals := m_normals m; m_colors := m_colors m;
          m_r := (facet_rgb d dr dg db f).1.1;
          m_g := (facet_rgb d dr dg db f).1.2;
          m_b := (facet_rgb d dr dg db f).2 |}.
Proof.
  intros [cs Hcs] Hlen. unfold facet_color, getUint16. rewrite Hcs.
  rewrite getUint_ok by lia. cbn [mbind result_bind].
  pose proof (uint_at_bounds 2 d (record_start f + 48)) as Hp.
  change (256 ^ Z.of_nat 2) with 65536 in Hp.
  unfold facet_rgb, field5.
  rewrite flag_test, !field_mask, field_mask_0 by lia.
  now destruct (Z.testbit _ 15).
Qed.

Lemma facet_color_err (d : list byte) (start : nat) (dr dg db : number) (m : mesh) :
  is_Some (m_colors m) ->
  (length d < start + 50)%nat ->
  facet_color d start dr dg db m = RangeError.
Proof.
  intros [cs Hcs] Hlen. unfold facet_color, getUint16. rewrite Hcs.
  now rewrite getUint_err by lia.
Qed.

End Facets.

(** The read at the head of a sequence either fits or raises. *)
Ltac read_head :=
  match goal with
  | |- (DataView.getFloat32 ?d ?o true ≫= _) = RangeError =>
      destruct (decide (o + 4 <= length d)%nat);
      [rewrite (getFloat32_ok d o) by lia; cbn [mbind result_bind]
      |rewrite (getFloat32_err d o) by lia; reflexivity]
  end.

Section FacetLoop.
Import DataView Layout BinaryStl.

Variable d : list byte.
Variables dr dg db : number.

Lemma gather_S (g : nat -> list number) (f : nat) :
  gather g (S f) = gather g f ++ g f.
Proof.
  unfold gather. rewrite seq_S, flat_map_app. cbn [flat_map Nat.add].
  now rewrite app_nil_r.
Qed.

Lemma gather_length (g : nat -> list number) (f : nat) :
  (forall i, length (g i) = 9%nat) -> length (gather g f) = (f * 3 * 3)%nat.
Proof.
  intros Hg. induction f as [|f IH]; [reflexivity|].
  rewrite gather_S, length_app, IH, Hg. lia.
Qed.

Lemma facet_positions_length (f : nat) : length (facet_positions d f) = 9%nat.
Proof. reflexivity. Qed.

Lemma facet_normals_length (f : nat) : length (facet_normals d f) = 9%nat.
Proof. reflexivity. Qed.

Lemma facet_colors_length (f : nat) : length (facet_colors d dr dg db f) = 9%nat.
Proof. unfold facet_colors. now destruct (facet_rgb d dr dg db f) as [[r g] b]. Qed.

Lemma filled_step (g : nat -> list number) (f n : nat) (a : list number)
    (x0 x1 x2 x3 x4 x5 x6 x7 x8 : number) :
  (forall i, length (g i) = 9%nat) ->
  filled g f (S n) a ->
  g f = [Js.fround x0; Js.fround x1; Js.fround x2; Js.fround x3; Js.fround x4;
         Js.fround x5; Js.fround x6; Js.fround x7; Js.fround x8] ->
  filled g (S f) n
    (store3 (store3 (store3 a (f * 3 * 3 + (1 - 1) * 3) x0 x1 x2)
               (f * 3 * 3 + (2 - 1) * 3) x3 x4 x5)
       (f * 3 * 3 + (3 - 1) * 3) x6 x7 x8).
Proof.
  intros Hg -> Hgf. unfold filled.
  rewrite replicate_9. cbn [app].
  rewrite store9_app by now apply gather_length.
  now rewrite gather_S, Hgf, <- app_assoc.
Qed.

Lemma face_step_ok (colored : bool) (f n : nat) (m : mesh) :
  mesh_inv d dr dg db colored f (S n) m ->
  (record_start f + face_bytes colored <= length d)%nat ->
  exists m', face_step d dr dg db f m = Ok m'
             /\ mesh_inv d dr dg db colored (S f) n m'.
Proof.
  intros (Hv & Hn & Hc) Hlen. unfold face_step.
  change (dataOffset + f * faceLength)%nat with (record_start f).
  assert (record_start f + 48 <= length d)%nat
    by (unfold face_bytes in Hlen; destruct colored; lia).
  rewrite !getFloat32_ok by lia. cbn [mbind result_bind].
  destruct colored.
  - destruct Hc as (cs & Hcs & Hc).
    rewrite facet_color_some by (rewrite ?Hcs; eauto). cbn [mbind result_bind for_range].
    do 3 (rewrite vertex_step_ok by lia;
          cbn [mbind result_bind vertices m_normals m_colors m_r m_g m_b]).
    eexists; split; [reflexivity|].
    split; [|split]; cbn [vertices m_normals m_colors].
    + apply filled_step; [apply facet_positions_length|done|].
      now rewrite !fround_widen_f32.
    + apply filled_step; [apply facet_normals_length|done|].
      now rewrite !fround_widen_f32.
    + rewrite Hcs. cbn [fmap option_fmap option_map]. eexists; split; [reflexivity|].
      apply filled_step; [apply facet_colors_length|done|].
      unfold facet_colors. now destruct (facet_rgb d dr dg db f) as [[r g] b].
  - rewrite facet_color_none by done. cbn [mbind result_bind for_range].
    do 3 (rewrite vertex_step_ok by lia;
          cbn [mbind result_bind vertices m_normals m_colors m_r m_g m_b]).
    eexists; split; [reflexivity|].
    split; [|split]; cbn [vertices m_normals m_colors].
    + apply filled_step; [apply facet_positions_length|done|].
      now rewrite !fround_widen_f32.
    + apply filled_step; [apply facet_normals_length|done|].
      now rewrite !fround_widen_f32.
    + now rewrite Hc.
Qed.

Lemma vertex_step_err (face start i : nat) (nx ny nz : number) (m : mesh) :
  (length d < start + i * 12 + 12)%nat ->
  vertex_step d face start nx ny nz i m = RangeError.
Proof. intros Hlen. unfold vertex_step. repeat read_head. lia. Qed.

Lemma face_step_err (colored : bool) (f n : nat) (m : mesh) :
  mesh_inv d dr dg db colored f n m ->
  (length d < record_start f + face_bytes colored)%nat ->
  face_step d dr dg db f m = RangeError.
Proof.
  intros (_ & _ & Hc) Hlen. unfold face_step.
  change (dataOffset + f * faceLength)%nat with (record_start f).
  set (start := record_start f) in *.
  do 3 read_head.
  destruct colored; cbn [face_bytes] in Hlen.
  - destruct Hc as (cs & Hcs & _). rewrite facet_color_err; [done| |lia].
    rewrite Hcs; eauto.
  - rewrite facet_color_none by done. cbn [mbind result_bind for_range].
    repeat match goal with
           | |- context [vertex_step d f start ?x ?y ?z ?i ?m0] =>
               destruct (decide (start + i * 12 + 12 <= length d)%nat);
               [rewrite (vertex_step_ok d f start i x y z m0) by lia;
                cbn [mbind result_bind]
               |rewrite (vertex_step_err f start i x y z m0) by lia;
                reflexivity]
           end.
    lia.
Qed.

(** The loop returns exactly when the last record it reads fits. *)
Lemma face_loop_ok (colored : bool) (n f : nat) (m : mesh) :
  mesh_inv d dr dg db colored f n m ->
  (n = 0%nat \/ record_start (f + n - 1) + face_bytes colored <= length d)%nat ->
  exists m', for_range n f (face_step d dr dg db) m = Ok m'
             /\ mesh_inv d dr dg db colored (f + n) 0 m'.
Proof.
  revert f m; induction n as [|n IH]; intros f m Hinv Hlen.
  - exists m. now rewrite Nat.add_0_r.
  - cbn [for_range].
    assert (Hlast : (record_start (f + S n - 1) + face_bytes colored <= length d)%nat)
      by (destruct Hlen; [done|lia]).
    unfold record_start in Hlast.
    destruct (face_step_ok colored f n m Hinv) as (m1 & -> & Hinv1);
      [unfold record_start; nia|].
    cbn [mbind result_bind].
    replace (f + S n)%nat with (S f + n)%nat by lia.
    apply IH; [done|]. destruct n; [now left|right].
    unfold record_start. replace (S f + S n - 1)%nat with (f + S (S n) - 1)%nat by lia.
    lia.
Qed.

Lemma face_loop_err (colored : bool) (n f : nat) (m : mesh) :
  mesh_inv d dr dg db colored f (S n) m ->
  (length d < record_start (f + n) + face_bytes colored)%nat ->
  for_range (S n) f (face_step d dr dg db) m = RangeError.
Proof.
  revert f m; induction n as [|n IH]; intros f m Hinv Hlen.
  - cbn [for_range]. rewrite Nat.add_0_r in Hlen.
    now rewrite (face_step_err colored f 1 m).
  - destruct (decide (record_start f + face_bytes colored <= length d)%nat) as [Hok|Hko].
    + change (for_range (S (S n)) f (face_step d dr dg db) m)
        with (face_step d dr dg db f m ≫= for_range (S n) (S f) (face_step d dr dg db)).
      destruct (face_step_ok colored f (S n) m Hinv Hok) as (m1 & -> & Hinv1).
      cbn [mbind result_bind]. apply IH; [done|].
      now replace (S f + n)%nat with (f + S n)%nat by lia.
    + cbn [for_range]. rewrite (face_step_err colored f (S (S n)) m) by (done || lia).
      reflexivity.
Qed.

End FacetLoop.

(** ** What [parse] returns *)

Section Parse.
Import DataView Layout BinaryStl.

Lemma required_ge (faces : nat) (c : bool) : (84 <= required faces c)%nat.
Proof. destruct faces; cbn [required]; unfold record_start; lia. Qed.

Lemma header_of_hasColors (d : list byte) (faces : nat) :
  h_hasColors (header_of d faces (last_marker d)) = colored d.
Proof. unfold colored. now destruct (last_marker d). Qed.

Lemma mesh_inv_init (d : list byte) (faces : nat) :
  let h := header_of d faces (last_marker d) in
  mesh_inv d (h_defaultR h) (h_defaultG h) (h_defaultB h) (colored d) 0 faces
    {| vertices := Js.Float32Array (faces * 3 * 3);
       m_normals := Js.Float32Array (faces * 3 * 3);
       m_colors := h_colors h;
       m_r := Js.of_int 0; m_g := Js.of_int 0; m_b := Js.of_int 0 |}.
Proof.
  cbn zeta. unfold mesh_inv, filled, colored. cbn [vertices m_normals m_colors].
  split; [done|split; [done|]].
  destruct (last_marker d); cbn [header_of h_colors header_init]; eauto.
Qed.

(** [parse] raises exactly when the buffer is shorter than the bytes it
    reads, and returns the decoded model otherwise. *)
Theorem parse_spec (d : list byte) :
  parse d = if decide (required (faces_of d) (colored d) <= length d)%nat
            then Ok (decoded d) else RangeError.
Proof.
  pose proof (required_ge (faces_of d) (colored d)) as Hge.
  unfold parse, getUint32.
  destruct (decide (84 <= length d)%nat) as [H84|H84].
  2:{ rewrite getUint_err by lia. rewrite decide_False by lia. reflexivity. }
  rewrite getUint_ok by lia. cbn [mbind result_bind].
  fold (faces_of d). set (faces := faces_of d) in *.
  rewrite scan_header_spec by lia. cbn [mbind result_bind].
  pose proof (mesh_inv_init d faces) as Hinit. cbn zeta in Hinit.
  set (h := header_of d faces (last_marker d)) in *.
  case_decide as Hreq.
  - destruct (face_loop_ok d _ _ _ (colored d) faces 0 _ Hinit) as (m & -> & Hm).
    { destruct faces as [|k]; [now left|right]. cbn [required] in Hreq.
      now replace (0 + S k - 1)%nat with k by lia. }
    cbn [mbind result_bind]. destruct Hm as (Hv & Hn & Hc).
    unfold filled in Hv, Hn. cbn [Nat.mul replicate Nat.add] in Hv, Hn.
    rewrite app_nil_r in Hv, Hn. rewrite Hv, Hn.
    unfold decoded. fold faces. fold h.
    subst h. rewrite !header_of_hasColors.
    destruct (colored d).
    + destruct Hc as (cs & -> & Hc). unfold filled in Hc.
      cbn [Nat.mul replicate Nat.add] in Hc. rewrite app_nil_r in Hc. now rewrite Hc.
    + reflexivity.
  - destruct faces as [|k]; [cbn [required] in Hreq; lia|].
    rewrite (face_loop_err d _ _ _ (colored d) k 0 _ Hinit); [reflexivity|].
    cbn [required] in Hreq. cbn [Nat.add]. lia.
Qed.

End Parse.

(** ** Properties of the decoded model *)

Section Decoded.
Import DataView Layout BinaryStl.

Lemma parse_ok_inv (d : list byte) (m : ModelData) :
  parse d = Ok m ->
  (required (faces_of d) (colored d) <= length d)%nat /\ m = decoded d.
Proof.
  rewrite parse_spec. case_decide; [|discriminate].
  intros [= <-]. done.
Qed.

Lemma face_count_inv (d : list byte) (n : Z) :
  getUint32 d 80 true = Ok n -> (84 <= length d)%nat /\ n = uint_at 4 d 80.
Proof.
  unfold getUint32. intros H.
  destruct (decide (84 <= length d)%nat) as [Hl|Hl].
  - rewrite getUint_ok in H by lia. now injection H as <-.
  - rewrite getUint_err in H by lia. discriminate.
Qed.

Lemma faces_of_count (d : list byte) (n : Z) :
  getUint32 d 80 true = Ok n -> Z.of_nat (faces_of d) = n.
Proof.
  intros [_ ->]%face_count_inv. unfold faces_of.
  pose proof (uint_at_bounds 4 d 80). lia.
Qed.

Lemma gather_lookup (g : nat -> list number) (n f k : nat) :
  (forall i, length (g i) = 9%nat) ->
  (f < n)%nat -> (k < 9)%nat ->
  gather g n !! (f * 9 + k)%nat = g f !! k.
Proof.
  intros Hg Hf Hk. induction n as [|n IH]; [lia|].
  rewrite gather_S.
  pose proof (gather_length g n Hg) as Hlen.
  destruct (decide (f = n)) as [->|Hne].
  - rewrite lookup_app_r by lia. f_equal. lia.
  - rewrite lookup_app_l by lia. apply IH. lia.
Qed.

Lemma last_marker_below_None (d : list byte) (k : nat) :
  last_marker_below d k = None <-> forall i, (i < k)%nat -> ~ marker_at d i.
Proof.
  induction k as [|k IH]; cbn [last_marker_below].
  - split; [intros _ i Hi; lia|done].
  - unfold markerb. case_bool_decide as Hm.
    + split; [discriminate|]. intros H. exfalso. apply (H k); [lia|done].
    + rewrite IH. split; intros H i Hi.
      * destruct (decide (i = k)) as [->|]; [done|apply H; lia].
      * apply H; lia.
Qed.

Lemma last_marker_below_Some (d : list byte) (k j : nat) :
  last_marker_below d k = Some j <->
  (j < k)%nat /\ marker_at d j /\ forall i, (j < i < k)%nat -> ~ marker_at d i.
Proof.
  induction k as [|k IH]; cbn [last_marker_below].
  - split; [discriminate|intros [? _]; lia].
  - unfold markerb. case_bool_decide as Hm.
    + split.
      * intros [= <-]. split; [lia|split; [done|intros i Hi; lia]].
      * intros (Hj & Hmj & Hno). f_equal.
        destruct (decide (j = k)) as [->|]; [done|].
        exfalso. apply (Hno k); [lia|done].
    + rewrite IH. split; intros (Hj & Hmj & Hno).
      * split; [lia|split; [done|]]. intros i Hi.
        destruct (decide (i = k)) as [->|]; [done|apply Hno; lia].
      * destruct (decide (j = k)) as [->|]; [done|].
        split; [lia|split; [done|]]. intros i Hi. apply Hno; lia.
Qed.

(** [last_marker] is the rightmost offset below 70 that holds the marker. *)
Lemma last_marker_Some (d : list byte) (j : nat) :
  last_marker d = Some j <->
  (j < 70)%nat /\ marker_at d j /\ forall i, (j < i < 70)%nat -> ~ marker_at d i.
Proof. apply last_marker_below_Some. Qed.

Lemma last_marker_None (d : list byte) :
  last_marker d = None <-> forall i, (i < 70)%nat -> ~ marker_at d i.
Proof. apply last_marker_below_None. Qed.

End Decoded.

(** ** The single-triangle file, lengths and normals *)

Section Geometry.
Import DataView Layout BinaryStl Samples.

(** C1.  The 134-byte single-triangle file (80 header bytes, all zero or
    all spaces, the little-endian count 1, one record with normal (0,0,1)
    and vertices (0,0,0), (1,0,0), (0,1,0), and any color word) decodes
    to position = [0,0,0, 1,0,0, 0,1,0] and normals = [0,0,1, 0,0,1,
    0,0,1], without colors. *)
Theorem single_triangle_decodes (a0 a1 : byte) :
  length (triangle Byte.x00 a0 a1) = 134%nat
  /\ parse (triangle Byte.x00 a0 a1) = Ok triangle_model
  /\ parse (triangle Byte.x20 a0 a1) = Ok triangle_model.
Proof. repeat split; vm_compute; reflexivity. Qed.

(** C2.  Whenever [parse] returns, position and normals both have
    facetCount * 9 elements, the color array has as many when it is
    present, and each of these lengths is a multiple of 9. *)
Theorem decoded_lengths (d : list byte) (m : ModelData) (n : Z) :
  parse d = Ok m ->
  getUint32 d 80 true = Ok n ->
  Z.of_nat (length (position m)) = n * 9
  /\ Z.of_nat (length (normals m)) = n * 9
  /\ (forall cs, colors m = Some cs -> Z.of_nat (length cs) = n * 9)
  /\ (length (position m) mod 9 = 0)%nat
  /\ (length (normals m) mod 9 = 0)%nat
  /\ (forall cs, colors m = Some cs -> (length cs mod 9 = 0)%nat).
Proof.
  intros [_ ->]%parse_ok_inv <-%faces_of_count.
  set (h := header_of d (faces_of d) (last_marker d)).
  assert (Hp : length (position (decoded d)) = (faces_of d * 3 * 3)%nat)
    by (apply gather_length, facet_positions_length).
  assert (Hn : length (normals (decoded d)) = (faces_of d * 3 * 3)%nat)
    by (apply gather_length, facet_normals_length).
  assert (Hc : forall cs, colors (decoded d) = Some cs ->
                          length cs = (faces_of d * 3 * 3)%nat).
  { intros cs. unfold decoded. cbn [colors]. fold h.
    destruct (h_hasColors h); [|discriminate].
    intros [= <-]. apply gather_length, facet_colors_length. }
  assert (Hmod : forall k, (k * 3 * 3 mod 9 = 0)%nat).
  { intros k. replace (k * 3 * 3)%nat with (k * 9)%nat by lia.
    now apply Nat.Div0.mod_mul. }
  rewrite Hp, Hn. repeat split; try lia; try apply Hmod.
  - intros cs Hcs. rewrite (Hc cs Hcs). lia.
  - intros cs Hcs. rewrite (Hc cs Hcs). apply Hmod.
Qed.

Lemma decoded_lengths_witness :
  Z.of_nat (length (position triangle_model)) = 1 * 9
  /\ Z.of_nat (length (normals triangle_model)) = 1 * 9
  /\ (forall cs, colors triangle_model = Some cs -> Z.of_nat (length cs) = 1 * 9)
  /\ (length (position triangle_model) mod 9 = 0)%nat
  /\ (length (normals triangle_model) mod 9 = 0)%nat
  /\ (forall cs, colors triangle_model = Some cs -> (length cs mod 9 = 0)%nat).
Proof.
  apply (decoded_lengths (triangle Byte.x00 Byte.x00 Byte.x00) triangle_model 1);
    vm_compute; reflexivity.
Defined.

(** C3.  Normal broadcast: for every facet f below the count, the
    binary32 normal (nx, ny, nz) stored at byte offsets 84 + f*50, +4 and
    +8 is what [normals] holds for each of the facet's three vertices. *)
Theorem normal_broadcast (d : list byte) (m : ModelData) (n : Z) (f : nat) :
  parse d = Ok m ->
  getUint32 d 80 true = Ok n ->
  Z.of_nat f < n ->
  exists nx ny nz,
    float32_at d (84 + f * 50) true = Ok nx
    /\ float32_at d (84 + f * 50 + 4) true = Ok ny
    /\ float32_at d (84 + f * 50 + 8) true = Ok nz
    /\ forall v, (v < 3)%nat ->
         normals m !! (f * 9 + v * 3)%nat = Some nx
         /\ normals m !! (f * 9 + v * 3 + 1)%nat = Some ny
         /\ normals m !! (f * 9 + v * 3 + 2)%nat = Some nz.
Proof.
  intros [Hreq ->]%parse_ok_inv Hn%faces_of_count Hf.
  assert (Hlt : (f < faces_of d)%nat) by lia.
  assert (Hlen : (record_start f + 48 <= length d)%nat).
  { destruct (faces_of d) as [|k]; [lia|]. cbn [required] in Hreq.
    unfold record_start, face_bytes in *. destruct (colored d); nia. }
  unfold record_start in Hlen.
  exists (f32_at d (84 + f * 50)), (f32_at d (84 + f * 50 + 4)),
    (f32_at d (84 + f * 50 + 8)).
  rewrite !float32_at_ok by lia. repeat split; try reflexivity.
  all: cbn [normals decoded]; rewrite <- ?Nat.add_assoc;
    rewrite gather_lookup by (try apply facet_normals_length; lia);
    destruct v as [|[|[|v]]]; [reflexivity..|lia].
Qed.

Lemma normal_broadcast_witness :
  exists nx ny nz,
    float32_at (triangle Byte.x00 Byte.x00 Byte.x00) (84 + 0 * 50) true = Ok nx
    /\ float32_at (triangle Byte.x00 Byte.x00 Byte.x00) (84 + 0 * 50 + 4) true = Ok ny
    /\ float32_at (triangle Byte.x00 Byte.x00 Byte.x00) (84 + 0 * 50 + 8) true = Ok nz
    /\ forall v, (v < 3)%nat ->
         normals triangle_model !! (0 * 9 + v * 3)%nat = Some nx
         /\ normals triangle_model !! (0 * 9 + v * 3 + 1)%nat = Some ny
         /\ normals triangle_model !! (0 * 9 + v * 3 + 2)%nat = Some nz.
Proof.
  apply (normal_broadcast (triangle Byte.x00 Byte.x00 Byte.x00) triangle_model 1 0);
    [vm_compute; reflexivity|vm_compute; reflexivity|lia].
Defined.

End Geometry.

(** ** Colors *)

Section Colors.
Import DataView Layout BinaryStl Samples.

Lemma record_fits (d : list byte) (f : nat) :
  (required (faces_of d) (colored d) <= length d)%nat ->
  (f < faces_of d)%nat ->
  (record_start f + face_bytes (colored d) <= length d)%nat.
Proof.
  intros Hreq Hf. destruct (faces_of d) as [|k]; [lia|].
  cbn [required] in Hreq. unfold record_start in *. nia.
Qed.

Lemma decoded_colors (d : list byte) (cs : list number) :
  colors (decoded d) = Some cs ->
  exists j, last_marker d = Some j
    /\ cs = gather (facet_colors d (unit_of_byte d (j + 6))
                      (unit_of_byte d (j + 7)) (unit_of_byte d (j + 8)))
              (faces_of d).
Proof.
  unfold decoded. cbn [colors].
  destruct (last_marker d) as [j|]; cbn [header_of h_hasColors header_init];
    [|discriminate].
  intros [= <-]. now exists j.
Qed.

Lemma colors_lookup (d : list byte) (dr dg db : number) (f v : nat) :
  (f < faces_of d)%nat -> (v < 3)%nat ->
  let cs := gather (facet_colors d dr dg db) (faces_of d) in
  let rgb := facet_rgb d dr dg db f in
  cs !! (f * 9 + v * 3)%nat = Some (Js.fround rgb.1.1)
  /\ cs !! (f * 9 + v * 3 + 1)%nat = Some (Js.fround rgb.1.2)
  /\ cs !! (f * 9 + v * 3 + 2)%nat = Some (Js.fround rgb.2).
Proof.
  intros Hf Hv. cbn zeta.
  repeat split; rewrite <- ?Nat.add_assoc;
    rewrite gather_lookup by (try apply facet_colors_length; lia);
    unfold facet_colors; destruct (facet_rgb d dr dg db f) as [[r g] b];
    destruct v as [|[|[|v]]]; (reflexivity || lia).
Qed.

Lemma packed_color_inv (d : list byte) (f : nat) (packed : Z) :
  getUint16 d (84 + f * 50 + 48) true = Ok packed ->
  packed = uint_at 2 d (record_start f + 48) /\ 0 <= packed < 65536.
Proof.
  unfold getUint16. intros H.
  destruct (decide (84 + f * 50 + 48 + 2 <= length d)%nat).
  - rewrite getUint_ok in H by lia. injection H as <-. split; [done|].
    apply (uint_at_bounds 2).
  - rewrite getUint_err in H by lia. discriminate.
Qed.

(** C4.  Per-facet color: with colors enabled, a facet whose packed
    color (little-endian 16 bits at record offset 48) has bit 15 clear
    gets, for each of its three vertices, the triple
    ((packed & 0x1F)/31, ((packed >> 5) & 0x1F)/31,
    ((packed >> 10) & 0x1F)/31), held as 32-bit floats; with the fields
    R = 31, G = 0, B = 0 that triple is (1, 0, 0). *)
Theorem facet_color_override (d : list byte) (m : ModelData) (n : Z)
    (cs : list number) (f : nat) (packed : Z) :
  parse d = Ok m ->
  getUint32 d 80 true = Ok n ->
  colors m = Some cs ->
  Z.of_nat f < n ->
  getUint16 d (84 + f * 50 + 48) true = Ok packed ->
  Js.and packed 0x8000 = 0 ->
  let r := Js.div (Js.of_int (Js.and packed 0x1F)) (Js.of_int 31) in
  let g := Js.div (Js.of_int (Js.and (Js.shr packed 5) 0x1F)) (Js.of_int 31) in
  let b := Js.div (Js.of_int (Js.and (Js.shr packed 10) 0x1F)) (Js.of_int 31) in
  (forall v, (v < 3)%nat ->
     cs !! (f * 9 + v * 3)%nat = Some (Js.fround r)
     /\ cs !! (f * 9 + v * 3 + 1)%nat = Some (Js.fround g)
     /\ cs !! (f * 9 + v * 3 + 2)%nat = Some (Js.fround b))
  /\ (Js.and packed 0x1F = 31 -> Js.and (Js.shr packed 5) 0x1F = 0 ->
      Js.and (Js.shr packed 10) 0x1F = 0 ->
      forall v, (v < 3)%nat ->
        cs !! (f * 9 + v * 3)%nat = Some (Js.fround (Js.of_int 1))
        /\ cs !! (f * 9 + v * 3 + 1)%nat = Some (Js.fround (Js.of_int 0))
        /\ cs !! (f * 9 + v * 3 + 2)%nat = Some (Js.fround (Js.of_int 0))).
Proof.
  intros [Hreq ->]%parse_ok_inv Hn%faces_of_count Hcs Hf Hp Hflag.
  apply decoded_colors in Hcs as (j & Hj & ->).
  apply packed_color_inv in Hp as [Hp Hrange].
  assert (Hlt : (f < faces_of d)%nat) by lia.
  assert (Hrgb : facet_rgb d (unit_of_byte d (j + 6)) (unit_of_byte d (j + 7))
                   (unit_of_byte d (j + 8)) f
                 = (Js.div (Js.of_int (Js.and packed 0x1F)) (Js.of_int 31),
                    Js.div (Js.of_int (Js.and (Js.shr packed 5) 0x1F)) (Js.of_int 31),
                    Js.div (Js.of_int (Js.and (Js.shr packed 10) 0x1F)) (Js.of_int 31))).
  { unfold facet_rgb. rewrite <- Hp.
    assert (Hbit : Z.testbit packed 15 = false).
    { pose proof (flag_test packed Hrange) as Ht. rewrite Hflag in Ht.
      change (0 =? 0) with true in Ht.
      destruct (Z.testbit packed 15); [discriminate|reflexivity]. }
    rewrite Hbit. unfold field5.
    now rewrite field_mask_0, !field_mask by lia. }
  cbn zeta. split.
  - intros v Hv.
    pose proof (colors_lookup d (unit_of_byte d (j + 6)) (unit_of_byte d (j + 7))
                  (unit_of_byte d (j + 8)) f v Hlt Hv) as Hl.
    cbn zeta in Hl. rewrite Hrgb in Hl. exact Hl.
  - intros Hr Hg Hb v Hv.
    pose proof (colors_lookup d (unit_of_byte d (j + 6)) (unit_of_byte d (j + 7))
                  (unit_of_byte d (j + 8)) f v Hlt Hv) as Hl.
    cbn zeta in Hl. rewrite Hrgb, Hr, Hg, Hb in Hl. exact Hl.
Qed.

Lemma facet_color_override_witness :
  parse (gray_triangle 31 0) = Ok red_model
  /\ getUint16 (gray_triangle 31 0) (84 + 0 * 50 + 48) true = Ok 31
  /\ Js.and 31 0x8000 = 0
  /\ forall v, (v < 3)%nat ->
       f32_array [1; 0; 0; 1; 0; 0; 1; 0; 0] !! (0 * 9 + v * 3)%nat
       = Some (Js.fround (Js.of_int 1))
       /\ f32_array [1; 0; 0; 1; 0; 0; 1; 0; 0] !! (0 * 9 + v * 3 + 1)%nat
          = Some (Js.fround (Js.of_int 0))
       /\ f32_array [1; 0; 0; 1; 0; 0; 1; 0; 0] !! (0 * 9 + v * 3 + 2)%nat
          = Some (Js.fround (Js.of_int 0)).
Proof.
  split; [vm_compute; reflexivity|]. split; [vm_compute; reflexivity|].
  split; [reflexivity|].
  apply (proj2 (facet_color_override (gray_triangle 31 0) red_model 1
                  (f32_array [1; 0; 0; 1; 0; 0; 1; 0; 0]) 0 31
                  ltac:(vm_compute; reflexivity) ltac:(vm_compute; reflexivity)
                  ltac:(reflexivity) ltac:(lia)
                  ltac:(vm_compute; reflexivity) ltac:(reflexivity)));
    reflexivity.
Defined.

(** *** The default color of the header *)

Lemma decoded_with_marker (d : list byte) (j : nat) :
  last_marker d = Some j ->
  hasColors (decoded d) = true
  /\ alpha (decoded d) = Some (unit_of_byte d (j + 9))
  /\ colors (decoded d)
     = Some (gather (facet_colors d (unit_of_byte d (j + 6))
                       (unit_of_byte d (j + 7)) (unit_of_byte d (j + 8)))
               (faces_of d)).
Proof. intros Hj. unfold decoded. rewrite Hj. done. Qed.

Lemma default_color_lookup (d : list byte) (dr dg db : number) (f v : nat)
    (packed : Z) :
  (f < faces_of d)%nat -> (v < 3)%nat ->
  getUint16 d (84 + f * 50 + 48) true = Ok packed ->
  Js.and packed 0x8000 <> 0 ->
  let cs := gather (facet_colors d dr dg db) (faces_of d) in
  cs !! (f * 9 + v * 3)%nat = Some (Js.fround dr)
  /\ cs !! (f * 9 + v * 3 + 1)%nat = Some (Js.fround dg)
  /\ cs !! (f * 9 + v * 3 + 2)%nat = Some (Js.fround db).
Proof.
  intros Hf Hv [Hp Hrange]%packed_color_inv Hflag. cbn zeta.
  pose proof (colors_lookup d dr dg db f v Hf Hv) as Hl. cbn zeta in Hl.
  assert (Hrgb : facet_rgb d dr dg db f = (dr, dg, db)).
  { unfold facet_rgb. rewrite <- Hp.
    pose proof (flag_test packed Hrange) as Ht.
    destruct (Z.testbit packed 15); [done|].
    apply Z.eqb_eq in Ht. contradiction. }
  rewrite Hrgb in Hl. exact Hl.
Qed.

Lemma header_byte (d : list byte) (off : nat) :
  (off < length d)%nat -> getUint8 d off = Ok (uint_at 1 d off).
Proof. intros H. unfold getUint8. apply getUint_ok. lia. Qed.

Lemma uint_at_prefix (d : list byte) (k n off : nat) :
  (off + n <= k)%nat -> uint_at n d off = uint_at n (take k d) off.
Proof.
  intros H. unfold uint_at. f_equal.
  rewrite !take_drop_commute, take_take. do 2 f_equal. lia.
Qed.

(** C5, amended.  Header default color: a file whose header starts with
    "COLOR=" 0x80 0x80 0x80 0xFF and holds no further marker at a later
    offset below 70 decodes with hasColors = true and alpha = 1.0, and
    every facet whose packed color has bit 15 set gets (128/255, 128/255,
    128/255), held as 32-bit floats, for its three vertices. *)
Theorem header_default_color (d : list byte) (m : ModelData) (n : Z) :
  parse d = Ok m ->
  getUint32 d 80 true = Ok n ->
  take 10 d = color_marker 128 128 128 255 ->
  last_marker d = Some 0%nat ->
  hasColors m = true
  /\ alpha m = Some (Js.of_int 1)
  /\ exists cs, colors m = Some cs
       /\ forall f packed v,
            Z.of_nat f < n ->
            getUint16 d (84 + f * 50 + 48) true = Ok packed ->
            Js.and packed 0x8000 <> 0 ->
            (v < 3)%nat ->
            cs !! (f * 9 + v * 3)%nat = Some gray
            /\ cs !! (f * 9 + v * 3 + 1)%nat = Some gray
            /\ cs !! (f * 9 + v * 3 + 2)%nat = Some gray.
Proof.
  intros [Hreq ->]%parse_ok_inv Hn%faces_of_count Hhead Hlast.
  destruct (decoded_with_marker d 0 Hlast) as (Hh & Ha & Hc).
  cbn [Nat.add] in Ha, Hc.
  assert (Hu : forall off v, (off < 10)%nat ->
               uint_at 1 (color_marker 128 128 128 255) off = v ->
               unit_of_byte d off = Js.div (Js.of_int v) (Js.of_int 255)).
  { intros off v Hoff <-. unfold unit_of_byte.
    rewrite (uint_at_prefix d 10 1 off) by lia. now rewrite Hhead. }
  split; [done|]. split.
  - rewrite Ha, (Hu 9%nat 255) by (lia || reflexivity). vm_compute. reflexivity.
  - rewrite (Hu 6%nat 128), (Hu 7%nat 128), (Hu 8%nat 128) in Hc
      by (lia || reflexivity).
    eexists; split; [exact Hc|]. intros f packed v Hf Hp Hflag Hv.
    apply (default_color_lookup d _ _ _ f v packed); (lia || done).
Qed.

Lemma header_default_color_witness :
  hasColors gray_model = true
  /\ alpha gray_model = Some (Js.of_int 1)
  /\ exists cs, colors gray_model = Some cs
       /\ forall f packed v,
            Z.of_nat f < 1 ->
            getUint16 (gray_triangle 0 128) (84 + f * 50 + 48) true = Ok packed ->
            Js.and packed 0x8000 <> 0 ->
            (v < 3)%nat ->
            cs !! (f * 9 + v * 3)%nat = Some gray
            /\ cs !! (f * 9 + v * 3 + 1)%nat = Some gray
            /\ cs !! (f * 9 + v * 3 + 2)%nat = Some gray.
Proof.
  apply (header_default_color (gray_triangle 0 128) gray_model 1);
    vm_compute; reflexivity.
Defined.

(** C5, as stated, fails: with the gray marker at offset 0, a second
    marker at offset 20 and bit 15 of the facet's color word set, the
    header loop goes on to offset 20 and overwrites the defaults, so the
    facet is red and alpha is 128/255. *)
Lemma default_color_overwritten :
  take 10 Edge.gray_then_red = color_marker 128 128 128 255
  /\ getUint32 Edge.gray_then_red 80 true = Ok 1
  /\ getUint16 Edge.gray_then_red (84 + 0 * 50 + 48) true = Ok 32768
  /\ Js.and 32768 0x8000 <> 0
  /\ parse Edge.gray_then_red = Ok Edge.gray_then_red_model
  /\ colors Edge.gray_then_red_model <> Some (replicate 9 gray)
  /\ alpha Edge.gray_then_red_model <> Some (Js.of_int 1).
Proof. repeat split; vm_compute; congruence. Qed.

(** The stored gray is the binary32 value nearest to 128/255; dividing in
    binary32 gives the same value. *)
Example gray_value :
  gray = S754_finite false 8421505 (-24)
  /\ gray = SFdiv 24 128 (Js.fround (Js.of_int 128)) (Js.fround (Js.of_int 255))
  /\ gray <> Js.div (Js.of_int 128) (Js.of_int 255).
Proof. repeat split; vm_compute; congruence. Qed.

End Colors.

(** ** Several markers, no facets, short buffers *)

Section Markers.
Import DataView Layout BinaryStl Samples.

(** C6.  Several markers: when the marker stands at offset i and again
    at a later offset j below 70, j being the last such offset, the scan
    has gone on past i and the model takes alpha and the default red,
    green and blue from the four bytes behind j. *)
Theorem last_marker_wins (d : list byte) (m : ModelData) (n : Z) (i j : nat) :
  parse d = Ok m ->
  getUint32 d 80 true = Ok n ->
  (i < j)%nat ->
  marker_at d i ->
  last_marker d = Some j ->
  exists r g b a,
    getUint8 d (j + 6) = Ok r /\ getUint8 d (j + 7) = Ok g
    /\ getUint8 d (j + 8) = Ok b /\ getUint8 d (j + 9) = Ok a
    /\ hasColors m = true
    /\ alpha m = Some (Js.div (Js.of_int a) (Js.of_int 255))
    /\ exists cs, colors m = Some cs
         /\ forall f packed v,
              Z.of_nat f < n ->
              getUint16 d (84 + f * 50 + 48) true = Ok packed ->
              Js.and packed 0x8000 <> 0 ->
              (v < 3)%nat ->
              cs !! (f * 9 + v * 3)%nat
              = Some (Js.fround (Js.div (Js.of_int r) (Js.of_int 255)))
              /\ cs !! (f * 9 + v * 3 + 1)%nat
                 = Some (Js.fround (Js.div (Js.of_int g) (Js.of_int 255)))
              /\ cs !! (f * 9 + v * 3 + 2)%nat
                 = Some (Js.fround (Js.div (Js.of_int b) (Js.of_int 255))).
Proof.
  intros [Hreq ->]%parse_ok_inv Hcount Hij Hi Hlast.
  pose proof (proj1 (face_count_inv d n Hcount)) as H84.
  apply faces_of_count in Hcount.
  pose proof (proj1 (proj1 (last_marker_Some d j) Hlast)) as Hj.
  destruct (decoded_with_marker d j Hlast) as (Hh & Ha & Hc).
  exists (uint_at 1 d (j + 6)), (uint_at 1 d (j + 7)),
    (uint_at 1 d (j + 8)), (uint_at 1 d (j + 9)).
  rewrite !header_byte by lia.
  repeat (split; [done|]).
  eexists; split; [exact Hc|]. intros f packed v Hf Hp Hflag Hv.
  apply (default_color_lookup d _ _ _ f v packed); (lia || done).
Qed.

Lemma last_marker_wins_witness :
  marker_at two_markers 0 /\ marker_at two_markers 20
  /\ parse two_markers = Ok blue_model
  /\ exists r g b a,
    getUint8 two_markers (20 + 6) = Ok r /\ getUint8 two_markers (20 + 7) = Ok g
    /\ getUint8 two_markers (20 + 8) = Ok b /\ getUint8 two_markers (20 + 9) = Ok a
    /\ hasColors blue_model = true
    /\ alpha blue_model = Some (Js.div (Js.of_int a) (Js.of_int 255))
    /\ exists cs, colors blue_model = Some cs
         /\ forall f packed v,
              Z.of_nat f < 1 ->
              getUint16 two_markers (84 + f * 50 + 48) true = Ok packed ->
              Js.and packed 0x8000 <> 0 ->
              (v < 3)%nat ->
              cs !! (f * 9 + v * 3)%nat
              = Some (Js.fround (Js.div (Js.of_int r) (Js.of_int 255)))
              /\ cs !! (f * 9 + v * 3 + 1)%nat
                 = Some (Js.fround (Js.div (Js.of_int g) (Js.of_int 255)))
              /\ cs !! (f * 9 + v * 3 + 2)%nat
                 = Some (Js.fround (Js.div (Js.of_int b) (Js.of_int 255))).
Proof.
  split; [reflexivity|]. split; [reflexivity|]. split; [vm_compute; reflexivity|].
  apply (last_marker_wins two_markers blue_model 1 0 20);
    [vm_compute; reflexivity|vm_compute; reflexivity|lia|reflexivity
    |vm_compute; reflexivity].
Defined.

Lemma decoded_empty (d : list byte) :
  faces_of d = 0%nat ->
  position (decoded d) = [] /\ normals (decoded d) = []
  /\ forall cs, colors (decoded d) = Some cs -> cs = [].
Proof.
  intros H0. unfold decoded. rewrite H0. cbn [position normals colors].
  repeat split. intros cs. now destruct (h_hasColors _); intros [= <-].
Qed.

Lemma parse_empty (d : list byte) :
  getUint32 d 80 true = Ok 0 -> parse d = Ok (decoded d) /\ faces_of d = 0%nat.
Proof.
  intros Hcount. pose proof (proj1 (face_count_inv d 0 Hcount)) as H84.
  apply faces_of_count in Hcount.
  assert (H0 : faces_of d = 0%nat) by lia.
  rewrite parse_spec, H0. cbn [required]. now rewrite decide_True.
Qed.

(** C7.  No facets, no marker: a buffer of at least 84 bytes with the
    count 0 and no marker at any offset below 70 decodes to empty
    position and normals, hasColors = false and neither colors nor
    alpha. *)
Theorem empty_without_marker (d : list byte) :
  (84 <= length d)%nat ->
  getUint32 d 80 true = Ok 0 ->
  last_marker d = None ->
  parse d = Ok empty_model.
Proof.
  intros _ [-> H0]%parse_empty Hnone. f_equal.
  unfold decoded. now rewrite H0, Hnone.
Qed.

Lemma empty_without_marker_witness : parse empty_plain = Ok empty_model.
Proof.
  apply empty_without_marker;
    [vm_compute; lia|vm_compute; reflexivity|vm_compute; reflexivity].
Defined.

(** C10.  No facets but a marker: a buffer of at least 84 bytes with the
    count 0 and the marker at some offset below 70 decodes to
    hasColors = true, an empty color array that is present, and alpha =
    the byte at +9 behind the last marker, over 255. *)
Theorem empty_with_marker (d : list byte) (i : nat) :
  (84 <= length d)%nat ->
  getUint32 d 80 true = Ok 0 ->
  (i < 70)%nat ->
  marker_at d i ->
  exists j a,
    last_marker d = Some j /\ (i <= j)%nat
    /\ getUint8 d (j + 9) = Ok a
    /\ parse d = Ok (empty_colored_model a).
Proof.
  intros H84 [-> H0]%parse_empty Hi Hm.
  destruct (last_marker d) as [j|] eqn:Hlast.
  2:{ exfalso. apply (proj1 (last_marker_None d) Hlast i Hi Hm). }
  destruct (proj1 (last_marker_Some d j) Hlast) as (Hj & _ & Hno).
  exists j, (uint_at 1 d (j + 9)).
  split; [done|]. split.
  { destruct (decide (i <= j)%nat); [done|]. exfalso. apply (Hno i); [lia|done]. }
  rewrite header_byte by lia. split; [done|]. f_equal.
  unfold decoded. now rewrite H0, Hlast.
Qed.

Lemma empty_with_marker_witness :
  exists j a,
    last_marker empty_colored = Some j /\ (30 <= j)%nat
    /\ getUint8 empty_colored (j + 9) = Ok a
    /\ parse empty_colored = Ok (empty_colored_model a).
Proof.
  apply (empty_with_marker empty_colored 30);
    [vm_compute; lia|vm_compute; reflexivity|lia|reflexivity].
Defined.

(** C8, as stated, fails: the single-triangle file cut to 132 bytes is
    shorter than 84 + 1 * 50 and has the count 1, yet [parse] returns the
    triangle; without colors the last two bytes of a record are never
    read. *)
Lemma truncated_decodes :
  getUint32 triangle_cut 80 true = Ok 1
  /\ (length triangle_cut < 84 + 1 * 50)%nat
  /\ parse triangle_cut = Ok triangle_model.
Proof. repeat split; vm_compute; (reflexivity || lia). Qed.

(** C8, amended.  With a count n > 0, [parse] raises on every buffer
    shorter than 84 + n*50 - 2 bytes, and on every buffer shorter than
    84 + n*50 bytes whose header holds a color marker. *)
Theorem truncated_raises (d : list byte) (n : Z) :
  getUint32 d 80 true = Ok n ->
  0 < n ->
  Z.of_nat (length d) < 84 + n * 50 - 2
  \/ (colored d = true /\ Z.of_nat (length d) < 84 + n * 50) ->
  parse d = RangeError.
Proof.
  intros Hn%faces_of_count Hpos Hshort.
  rewrite parse_spec. rewrite decide_False; [done|].
  destruct (faces_of d) as [|k]; [lia|]. cbn [required].
  unfold record_start, face_bytes.
  destruct Hshort as [Hs|[-> Hs]]; [destruct (colored d)|]; lia.
Qed.

Lemma truncated_raises_witness :
  parse (take 131 (triangle Byte.x00 Byte.x00 Byte.x00)) = RangeError
  /\ parse (take 133 (gray_triangle 0 128)) = RangeError.
Proof.
  split.
  - apply (truncated_raises _ 1);
      [vm_compute; reflexivity|lia|left; vm_compute; reflexivity].
  - apply (truncated_raises _ 1);
      [vm_compute; reflexivity|lia
      |right; split; vm_compute; reflexivity].
Defined.

End Markers.

(** ** The loader over a heap computes what the pure loader computes *)

Section HeapSim.
Import Heap.

Variable σ0 : heap.
Variable data : loc.
Variable bs : list byte.
Hypothesis Hdata : σ0 !! data = Some (ArrayBuffer bs).

Lemma preserved_refl : preserved σ0 σ0.
Proof. now intros l o. Qed.

Lemma preserved_insert (σ : heap) (l : loc) (o : object) :
  preserved σ0 σ -> σ0 !! l = None -> preserved σ0 (<[l := o]> σ).
Proof.
  intros Hp Hl l' o' Hl'. rewrite lookup_insert_ne; [now apply Hp|].
  intros ->. congruence.
Qed.

Lemma bind_run {A B} (c : M A) (k : A -> M B) (σ : heap) :
  (c ≫= k) σ = match c σ with
               | Some (σ', Ok a) => k a σ'
               | Some (σ', RangeError) => Some (σ', RangeError)
               | None => None
               end.
Proof. reflexivity. Qed.

Lemma sim_ret {A B} (σ : heap) (a : A) (b : B) (R : heap -> A -> B -> Prop) :
  preserved σ0 σ -> R σ a b -> sim σ0 σ (mret a) (Ok b) R.
Proof. intros Hp HR. now exists σ, (Ok a). Qed.

Lemma sim_bind {A B A' B'} (σ : heap) (c : M A) (p : result B)
    (k : A -> M A') (kp : B -> result B')
    (R : heap -> A -> B -> Prop) (R' : heap -> A' -> B' -> Prop) :
  sim σ0 σ c p R ->
  (forall σ1 a b, preserved σ0 σ1 -> R σ1 a b -> sim σ0 σ1 (k a) (kp b) R') ->
  sim σ0 σ (c ≫= k) (p ≫= kp) R'.
Proof.
  intros (σ1 & r & Hc & Hp & Hr) Hk.
  unfold sim. rewrite bind_run, Hc.
  destruct r as [a|], p as [b|]; cbn in Hr; try done.
  - apply (Hk σ1 a b Hp Hr).
  - now exists σ1, RangeError.
Qed.

(** The same, when the pure loader has nothing after [p]. *)
Lemma sim_bind_last {A B A'} (σ : heap) (c : M A) (p : result B)
    (k : A -> M A')
    (R : heap -> A -> B -> Prop) (R' : heap -> A' -> B -> Prop) :
  sim σ0 σ c p R ->
  (forall σ1 a b, preserved σ0 σ1 -> R σ1 a b -> sim σ0 σ1 (k a) (Ok b) R') ->
  sim σ0 σ (c ≫= k) p R'.
Proof.
  intros Hc Hk. replace p with (p ≫= Ok) by now destruct p.
  now apply (sim_bind σ c p k Ok R R').
Qed.

Lemma sim_get {A} (σ : heap) (getter : list byte -> result A) :
  preserved σ0 σ ->
  sim σ0 σ (get data getter) (getter bs) (fun σ' a b => σ' = σ /\ a = b).
Proof.
  intros Hp. exists σ, (getter bs). unfold get. rewrite (Hp _ _ Hdata).
  split; [done|]. split; [done|]. now destruct (getter bs).
Qed.

Lemma sim_for_range {S T} (I : heap -> S -> T -> Prop)
    (body_h : nat -> S -> M S) (body : nat -> T -> result T) (n : nat) :
  (forall i σ s t, preserved σ0 σ -> I σ s t ->
                   sim σ0 σ (body_h i s) (body i t) I) ->
  forall i σ s t, preserved σ0 σ -> I σ s t ->
    sim σ0 σ (for_range_h n i body_h s) (for_range n i body t) I.
Proof.
  intros Hbody. induction n as [|n IH]; intros i σ s t Hp HI.
  - now apply sim_ret.
  - cbn [for_range_h for_range].
    apply (sim_bind σ _ _ _ _ I I); [now apply Hbody|].
    intros σ1 s1 t1 Hp1 HI1. now apply IH.
Qed.

Lemma sim_consequence {A B} (σ : heap) (c : M A) (p : result B)
    (R R' : heap -> A -> B -> Prop) :
  sim σ0 σ c p R -> (forall σ' a b, preserved σ0 σ' -> R σ' a b -> R' σ' a b) ->
  sim σ0 σ c p R'.
Proof.
  intros (σ1 & r & Hc & Hp & Hr) HR. exists σ1, r.
  split; [done|]. split; [done|].
  destruct r, p; cbn in *; try done. now apply HR.
Qed.

Lemma sim_step {A A' B} (σ σ1 : heap) (c : M A) (a : A) (k : A -> M A')
    (p : result B) (R : heap -> A' -> B -> Prop) :
  c σ = Some (σ1, Ok a) -> sim σ0 σ1 (k a) p R -> sim σ0 σ (c ≫= k) p R.
Proof. intros Hc Hk. unfold sim. now rewrite bind_run, Hc. Qed.

Lemma sim_last {A B} (σ σ1 : heap) (c : M A) (a : A) (b : B)
    (R : heap -> A -> B -> Prop) :
  c σ = Some (σ1, Ok a) -> preserved σ0 σ1 -> R σ1 a b -> sim σ0 σ c (Ok b) R.
Proof. intros Hc Hp HR. now exists σ1, (Ok a). Qed.

(** *** Stores *)

Lemma owns_set (σ : heap) (l : loc) (es : list number) (i : nat) (x : number) :
  owns σ0 σ l es ->
  set_elem l i x σ = Some (<[l := Float32Array (Js.store es i x)]> σ, Ok tt)
  /\ owns σ0 (<[l := Float32Array (Js.store es i x)]> σ) l (Js.store es i x).
Proof.
  intros [Hl H0]. unfold set_elem. rewrite Hl. split; [done|].
  split; [apply lookup_insert_eq|done].
Qed.

Lemma owns_other (σ : heap) (l l' : loc) (es : list number) (o : object) :
  owns σ0 σ l es -> l <> l' -> owns σ0 (<[l' := o]> σ) l es.
Proof. intros [Hl H0] Hne. split; [now rewrite lookup_insert_ne|done]. Qed.

Lemma set_vertices (σ : heap) (a : arrays) (vs ns : list number)
    (cs : option (list number)) (i : nat) (x : number) :
  preserved σ0 σ -> holds3 σ0 σ a vs ns cs ->
  exists σ1, set_elem (a_vertices a) i x σ = Some (σ1, Ok tt)
             /\ preserved σ0 σ1 /\ holds3 σ0 σ1 a (Js.store vs i x) ns cs.
Proof.
  intros Hp (Hv & Hn & Hvn & Hc).
  destruct (owns_set σ _ _ i x Hv) as [E Hv'].
  eexists; split; [exact E|]. split; [apply preserved_insert; [done|apply Hv]|].
  split; [done|]. split; [now apply owns_other|]. split; [done|].
  destruct (a_colors a), cs; try done.
  destruct Hc as (Hc & Hcv & Hcn). split; [now apply owns_other|done].
Qed.

Lemma set_normals (σ : heap) (a : arrays) (vs ns : list number)
    (cs : option (list number)) (i : nat) (x : number) :
  preserved σ0 σ -> holds3 σ0 σ a vs ns cs ->
  exists σ1, set_elem (a_normals a) i x σ = Some (σ1, Ok tt)
             /\ preserved σ0 σ1 /\ holds3 σ0 σ1 a vs (Js.store ns i x) cs.
Proof.
  intros Hp (Hv & Hn & Hvn & Hc).
  destruct (owns_set σ _ _ i x Hn) as [E Hn'].
  eexists; split; [exact E|]. split; [apply preserved_insert; [done|apply Hn]|].
  split; [now apply owns_other|]. split; [done|]. split; [done|].
  destruct (a_colors a), cs; try done.
  destruct Hc as (Hc & Hcv & Hcn). split; [now apply owns_other|done].
Qed.

Lemma set_colors (σ : heap) (a : arrays) (l : loc) (vs ns es : list number)
    (i : nat) (x : number) :
  a_colors a = Some l ->
  preserved σ0 σ -> holds3 σ0 σ a vs ns (Some es) ->
  exists σ1, set_elem l i x σ = Some (σ1, Ok tt)
             /\ preserved σ0 σ1 /\ holds3 σ0 σ1 a vs ns (Some (Js.store es i x)).
Proof.
  intros Hl Hp (Hv & Hn & Hvn & Hc). rewrite Hl in Hc.
  destruct Hc as (Hc & Hcv & Hcn).
  destruct (owns_set σ _ _ i x Hc) as [E Hc'].
  eexists; split; [exact E|]. split; [apply preserved_insert; [done|apply Hc]|].
  split; [now apply owns_other|]. split; [now apply owns_other|].
  split; [done|]. now rewrite Hl.
Qed.

(** *** The loops *)

Ltac sim_read x :=
  eapply sim_bind; [now apply sim_get|];
  let σ1 := fresh "σ" in let Hp := fresh "Hp" in let xh := fresh "h" in
  intros σ1 xh x Hp [-> ->]; cbn zeta.

Lemma vertex_step_sim (σ : heap) (a : arrays) (face start i : nat)
    (nx ny nz : number) (c : rgb) (m : BinaryStl.mesh) :
  preserved σ0 σ -> holds σ0 σ a c m ->
  sim σ0 σ (vertex_step data a face start nx ny nz c i tt)
    (BinaryStl.vertex_step bs face start nx ny nz i m)
    (fun σ' _ m' => holds σ0 σ' a c m').
Proof.
  intros Hp [H3 Hc]. unfold vertex_step, BinaryStl.vertex_step, getFloat32.
  sim_read x.
  destruct (set_vertices σ a _ _ _ (face * 3 * 3 + (i - 1) * 3) x Hp H3)
    as (σ1 & E1 & Hp1 & H1).
  eapply sim_step; [exact E1|]. clear E1 H3 Hp.
  sim_read y.
  destruct (set_vertices σ1 a _ _ _ (face * 3 * 3 + (i - 1) * 3 + 1) y Hp1 H1)
    as (σ2 & E2 & Hp2 & H2).
  eapply sim_step; [exact E2|]. clear E2 H1 Hp1.
  sim_read z.
  destruct (set_vertices σ2 a _ _ _ (face * 3 * 3 + (i - 1) * 3 + 2) z Hp2 H2)
    as (σ3 & E3 & Hp3 & H3).
  eapply sim_step; [exact E3|]. clear E3 H2 Hp2.
  destruct (set_normals σ3 a _ _ _ (face * 3 * 3 + (i - 1) * 3) nx Hp3 H3)
    as (σ4 & E4 & Hp4 & H4).
  eapply sim_step; [exact E4|]. clear E4 H3 Hp3.
  destruct (set_normals σ4 a _ _ _ (face * 3 * 3 + (i - 1) * 3 + 1) ny Hp4 H4)
    as (σ5 & E5 & Hp5 & H5).
  eapply sim_step; [exact E5|]. clear E5 H4 Hp4.
  destruct (set_normals σ5 a _ _ _ (face * 3 * 3 + (i - 1) * 3 + 2) nz Hp5 H5)
    as (σ6 & E6 & Hp6 & H6).
  eapply sim_step; [exact E6|]. clear E6 H5 Hp5.
  destruct (a_colors a) as [l|] eqn:Hl.
  - destruct (BinaryStl.m_colors m) as [es|] eqn:Hes.
    2:{ exfalso. destruct H6 as (_ & _ & _ & H6). now rewrite Hl in H6. }
    subst c. cbn [fst snd].
    destruct (set_colors σ6 a l _ _ _ (face * 3 * 3 + (i - 1) * 3)
                (BinaryStl.m_r m) Hl Hp6 H6) as (σ7 & E7 & Hp7 & H7).
    eapply sim_step; [exact E7|]. clear E7 H6 Hp6.
    destruct (set_colors σ7 a l _ _ _ (face * 3 * 3 + (i - 1) * 3 + 1)
                (BinaryStl.m_g m) Hl Hp7 H7) as (σ8 & E8 & Hp8 & H8).
    eapply sim_step; [exact E8|]. clear E8 H7 Hp7.
    destruct (set_colors σ8 a l _ _ _ (face * 3 * 3 + (i - 1) * 3 + 2)
                (BinaryStl.m_b m) Hl Hp8 H8) as (σ9 & E9 & Hp9 & H9).
    eapply sim_last; [exact E9|done|]. now split.
  - destruct (BinaryStl.m_colors m) as [es|] eqn:Hes.
    { exfalso. destruct H6 as (_ & _ & _ & H6). now rewrite Hl in H6. }
    apply sim_ret; [done|]. split; [|done].
    cbn [BinaryStl.vertices BinaryStl.m_normals BinaryStl.m_colors]. exact H6.
Qed.

Lemma facet_color_sim (σ : heap) (a : arrays) (start : nat)
    (dr dg db : number) (c : rgb) (m : BinaryStl.mesh) :
  preserved σ0 σ -> holds σ0 σ a c m ->
  sim σ0 σ (facet_color data a start dr dg db c)
    (BinaryStl.facet_color bs start dr dg db m)
    (fun σ' c' m' => holds σ0 σ' a c' m').
Proof.
  intros Hp [H3 Hc]. unfold facet_color, BinaryStl.facet_color, getUint16.
  pose proof H3 as (_ & _ & _ & Hcol).
  destruct (a_colors a) as [l|], (BinaryStl.m_colors m) as [es|] eqn:Hes;
    try done.
  - sim_read packedColor.
    destruct (Js.and packedColor 32768 =? 0); apply sim_ret; try done;
      (split; [|done]);
      cbn [BinaryStl.vertices BinaryStl.m_normals BinaryStl.m_colors];
      now rewrite Hes.
  - apply sim_ret; [done|]. split; [|done]. now rewrite Hes.
Qed.

Lemma face_step_sim (σ : heap) (a : arrays) (dr dg db : number) (face : nat)
    (c : rgb) (m : BinaryStl.mesh) :
  preserved σ0 σ -> holds σ0 σ a c m ->
  sim σ0 σ (face_step data a dr dg db face c)
    (BinaryStl.face_step bs dr dg db face m)
    (fun σ' c' m' => holds σ0 σ' a c' m').
Proof.
  intros Hp Hh. unfold face_step, BinaryStl.face_step, getFloat32.
  sim_read normalX. sim_read normalY. sim_read normalZ.
  eapply sim_bind; [now apply facet_color_sim|].
  intros σ1 c1 m1 Hq1 Hh1.
  eapply sim_bind_last.
  - apply (sim_for_range (fun σ' (_ : unit) m' => holds σ0 σ' a c1 m')); [|done..].
    intros i σ2 [] m2 Hq2 Hh2. now apply vertex_step_sim.
  - intros σ2 [] m2 Hq2 Hh2. now apply sim_ret.
Qed.

(** *** The header *)

Lemma new_run (σ : heap) (n : nat) :
  preserved σ0 σ ->
  let l := fresh (dom σ) in
  let σ1 := <[l := Float32Array (Js.Float32Array n)]> σ in
  new_Float32Array n σ = Some (σ1, Ok l)
  /\ preserved σ0 σ1
  /\ owns σ0 σ1 l (Js.Float32Array n)
  /\ σ !! l = None.
Proof.
  intros Hp. cbn zeta.
  assert (Hfresh : σ !! fresh (dom σ) = None)
    by (apply not_elem_of_dom, is_fresh).
  assert (H0 : σ0 !! fresh (dom σ) = None).
  { destruct (σ0 !! fresh (dom σ)) as [o|] eqn:E; [|done].
    apply Hp in E. congruence. }
  split; [done|]. split; [now apply preserved_insert|].
  split; [|done]. split; [apply lookup_insert_eq|done].
Qed.

Lemma header_step_sim (σ : heap) (faces i : nat) (hh : header)
    (h : BinaryStl.header) :
  preserved σ0 σ -> header_rel σ0 σ hh h ->
  sim σ0 σ (header_step data faces i hh) (BinaryStl.header_step bs faces i h)
    (header_rel σ0).
Proof.
  intros Hp Hh. unfold header_step, BinaryStl.header_step, getUint32, getUint8.
  sim_read colo. destruct (colo =? 1129270351); [|now apply sim_ret].
  sim_read c4. destruct (c4 =? 82); [|now apply sim_ret].
  sim_read c5. destruct (c5 =? 61); [|now apply sim_ret].
  destruct (new_run σ (faces * 3 * 3) Hp) as (E & Hq & Ho & _).
  eapply sim_step; [exact E|].
  sim_read cr. sim_read cg. sim_read cb. sim_read ca.
  apply sim_ret; [done|]. unfold header_rel.
  cbn [h_hasColors h_colors h_defaultR h_defaultG h_defaultB h_alpha
       BinaryStl.h_hasColors BinaryStl.h_colors BinaryStl.h_defaultR
       BinaryStl.h_defaultG BinaryStl.h_defaultB BinaryStl.h_alpha].
  repeat (split; [reflexivity|]). exact Ho.
Qed.

Lemma scan_header_sim (σ : heap) (faces : nat) :
  preserved σ0 σ ->
  sim σ0 σ (scan_header data faces) (BinaryStl.scan_header bs faces)
    (header_rel σ0).
Proof.
  intros Hp. unfold scan_header, BinaryStl.scan_header.
  apply (sim_for_range (header_rel σ0)); [|done|now repeat split].
  intros i σ1 hh h Hq Hh. now apply header_step_sim.
Qed.

Lemma owns_elems (σ : heap) (l : loc) (es : list number) :
  owns σ0 σ l es -> elems_at σ l = Some es.
Proof. intros [Hl _]. unfold elems_at. now rewrite Hl. Qed.

Lemma owns_distinct (σ : heap) (l l' : loc) (es : list number) :
  owns σ0 σ l es -> σ !! l' = None -> l <> l'.
Proof. intros [Hl _] Hl' ->. congruence. Qed.

(** [parse] over the heap leaves the objects it found as they were and
    returns the arrays that the pure [parse] computes from the bytes of
    the buffer, or raises when that one does. *)
Lemma parse_sim :
  sim σ0 σ0 (parse data) (BinaryStl.parse bs)
    (fun σ' r m => contents σ' r = Some m).
Proof.
  unfold parse, BinaryStl.parse, getUint32.
  pose proof preserved_refl as Hp.
  sim_read faces.
  eapply sim_bind; [now apply scan_header_sim|].
  intros σ1 hh h Hq1 (Hhc & Hr & Hg & Hb & Ha & Hcol). cbn zeta.
  destruct (new_run σ1 (Z.to_nat faces * 3 * 3) Hq1) as (E1 & Hq2 & Ho1 & Hn1).
  eapply sim_step; [exact E1|].
  set (l1 := fresh (dom σ1)) in *.
  set (σ2 := <[l1 := Float32Array (Js.Float32Array (Z.to_nat faces * 3 * 3))]> σ1) in *.
  destruct (new_run σ2 (Z.to_nat faces * 3 * 3) Hq2) as (E2 & Hq3 & Ho2 & Hn2).
  eapply sim_step; [exact E2|].
  set (l2 := fresh (dom σ2)) in *.
  set (σ3 := <[l2 := Float32Array (Js.Float32Array (Z.to_nat faces * 3 * 3))]> σ2) in *.
  assert (H12 : l1 <> l2) by (apply (owns_distinct σ2 l1 l2 _ Ho1 Hn2)).
  rewrite Hr, Hg, Hb, Ha, Hhc.
  set (a := {| a_vertices := l1; a_normals := l2; a_colors := h_colors hh |}).
  eapply sim_bind.
  - apply (sim_for_range (fun σ' c m => holds σ0 σ' a c m)); [|exact Hq3|].
    + intros i σ4 c m Hq4 Hh4. now apply face_step_sim.
    + split; [|reflexivity].
      cbn [BinaryStl.vertices BinaryStl.m_normals BinaryStl.m_colors].
      split; [now apply owns_other|]. split; [exact Ho2|]. split; [exact H12|].
      cbn [a_colors a].
      destruct (h_colors hh) as [l|], (BinaryStl.h_colors h) as [es|]; try done.
      assert (l <> l1) by (apply (owns_distinct σ1 l l1 _ Hcol Hn1)).
      assert (Hl2 : owns σ0 σ2 l es) by now apply owns_other.
      assert (l <> l2) by (apply (owns_distinct σ2 l l2 _ Hl2 Hn2)).
      split; [now apply owns_other|done].
  - intros σ4 c m Hq4 [(Hv & Hn & _ & Hc) _]. apply sim_ret; [done|].
    unfold contents. cbn [r_position r_normals r_colors r_hasColors r_alpha].
    cbn [a_vertices a_normals a_colors a] in Hv, Hn, Hc.
    rewrite (owns_elems σ4 l1 _ Hv), (owns_elems σ4 l2 _ Hn). cbn.
    destruct (BinaryStl.h_hasColors h); [|done].
    destruct (h_colors hh) as [l|], (BinaryStl.m_colors m) as [es|]; try done.
    destruct Hc as (Hc & _). now rewrite (owns_elems σ4 l _ Hc).
Qed.

End HeapSim.

Section Purity.
Import Heap.

(** C9.  Determinism and purity: run on two heaps whose input buffers
    hold the same bytes, [parse] either raises in both or returns in both
    objects whose hasColors, position, normals, colors and alpha are the
    same, element for element; and each run leaves every object that
    existed before the call, the input buffer among them, unchanged. *)
Theorem parse_pure (σ1 σ2 : heap) (data1 data2 : loc) (bs : list byte) :
  σ1 !! data1 = Some (ArrayBuffer bs) ->
  σ2 !! data2 = Some (ArrayBuffer bs) ->
  exists σ1' σ2' r1 r2,
    parse data1 σ1 = Some (σ1', r1)
    /\ parse data2 σ2 = Some (σ2', r2)
    /\ preserved σ1 σ1' /\ preserved σ2 σ2'
    /\ σ1' !! data1 = Some (ArrayBuffer bs)
    /\ σ2' !! data2 = Some (ArrayBuffer bs)
    /\ agree (fun a b => exists m, contents σ1' a = Some m
                                   /\ contents σ2' b = Some m
                                   /\ BinaryStl.parse bs = Ok m) r1 r2.
Proof.
  intros H1 H2.
  destruct (parse_sim σ1 data1 bs H1) as (σ1' & r1 & E1 & P1 & A1).
  destruct (parse_sim σ2 data2 bs H2) as (σ2' & r2 & E2 & P2 & A2).
  exists σ1', σ2', r1, r2.
  repeat (split; [done || (now apply P1) || (now apply P2)|]).
  destruct r1 as [a|], r2 as [b|], (BinaryStl.parse bs) as [m|]; cbn in *;
    try done.
  now exists m.
Qed.

Lemma parse_pure_witness :
  exists σ1' σ2' r1 r2,
    parse 0%nat Samples.heap_a = Some (σ1', r1)
    /\ parse 3%nat Samples.heap_b = Some (σ2', r2)
    /\ preserved Samples.heap_a σ1' /\ preserved Samples.heap_b σ2'
    /\ σ1' !! 0%nat
       = Some (ArrayBuffer (Samples.triangle Byte.x00 Byte.x00 Byte.x00))
    /\ σ2' !! 3%nat
       = Some (ArrayBuffer (Samples.triangle Byte.x00 Byte.x00 Byte.x00))
    /\ agree (fun a b =>
                exists m, contents σ1' a = Some m
                          /\ contents σ2' b = Some m
                          /\ BinaryStl.parse
                               (Samples.triangle Byte.x00 Byte.x00 Byte.x00)
                             = Ok m) r1 r2.
Proof.
  apply (parse_pure Samples.heap_a Samples.heap_b 0%nat 3%nat
           (Samples.triangle Byte.x00 Byte.x00 Byte.x00));
    vm_compute; reflexivity.
Defined.

(** The heap loader run on the first sample heap: it returns, and the
    arrays it returns hold the triangle. *)
Example parse_heap_a :
  exists σ' r, parse 0%nat Samples.heap_a = Some (σ', Ok r)
               /\ contents σ' r = Some Samples.triangle_model.
Proof.
  destruct (parse 0%nat Samples.heap_a) as [[σ' [r|]]|] eqn:E.
  - exists σ', r. split; [done|].
    revert E. vm_compute. intros [= <- <-]. reflexivity.
  - revert E. vm_compute. discriminate.
  - revert E. vm_compute. discriminate.
Qed.

End Purity.

(** ** Further properties of [parse] *)

Section Returns.
Import DataView Layout BinaryStl Samples.

(** X1.  [parse] returns exactly when the count is 0 or the last record fits
    up to its last vertex (up to its color word when the header holds a
    marker); it raises otherwise.  The count alone never makes it fail. *)
Theorem parse_returns_iff (d : list byte) (n : Z) :
  getUint32 d 80 true = Ok n ->
  (exists m, parse d = Ok m) <->
  (n = 0 \/ 84 + (n - 1) * 50 + (if colored d then 50 else 48)
            <= Z.of_nat (length d)).
Proof.
  intros Hcount. pose proof (proj1 (face_count_inv d n Hcount)) as H84.
  apply faces_of_count in Hcount. rewrite parse_spec.
  destruct (faces_of d) as [|k] eqn:Hk; cbn [required].
  - rewrite decide_True by lia. split; [intros _; left; lia|eauto].
  - unfold record_start, face_bytes. case_decide as Hreq.
    + split; [intros _; right; destruct (colored d); lia|eauto].
    + split; [intros [m [=]]|]. intros [H0|Hfit]; [lia|].
      exfalso. apply Hreq. destruct (colored d); lia.
Qed.

Lemma parse_returns_iff_witness :
  getUint32 triangle_cut 80 true = Ok 1
  /\ ((exists m, parse triangle_cut = Ok m) <->
      (1 = 0 \/ 84 + (1 - 1) * 50 + (if colored triangle_cut then 50 else 48)
                <= Z.of_nat (length triangle_cut))).
Proof.
  split; [vm_compute; reflexivity|].
  apply (parse_returns_iff triangle_cut 1). vm_compute; reflexivity.
Defined.

(** X2.  A buffer of fewer than 84 bytes, the empty one included, makes
    [parse] raise: the count is read before anything else. *)
Theorem short_buffer_raises (d : list byte) :
  (length d < 84)%nat -> parse d = RangeError.
Proof.
  intros Hlen. rewrite parse_spec.
  pose proof (required_ge (faces_of d) (colored d)).
  rewrite decide_False; [done|lia].
Qed.

Lemma short_buffer_raises_witness :
  (length (@nil byte) < 84)%nat /\ parse [] = RangeError
  /\ parse (replicate 83 Byte.x00) = RangeError.
Proof.
  split; [cbn; lia|]. split; apply short_buffer_raises; cbn; lia.
Defined.

(** X3.  Vertex layout: component c of vertex v of facet f is the binary32
    value at byte 84 + f*50 + 12 + v*12 + c*4, and sits at index
    f*9 + v*3 + c of [position]. *)
Theorem vertex_layout (d : list byte) (m : ModelData) (n : Z) (f v c : nat) :
  parse d = Ok m ->
  getUint32 d 80 true = Ok n ->
  Z.of_nat f < n -> (v < 3)%nat -> (c < 3)%nat ->
  exists x,
    float32_at d (84 + f * 50 + 12 + v * 12 + c * 4) true = Ok x
    /\ position m !! (f * 9 + v * 3 + c)%nat = Some x.
Proof.
  intros [Hreq ->]%parse_ok_inv Hn%faces_of_count Hf Hv Hc.
  assert (Hlt : (f < faces_of d)%nat) by lia.
  pose proof (record_fits d f Hreq Hlt) as Hfit.
  unfold record_start, face_bytes in Hfit.
  assert (84 + f * 50 + 48 <= length d)%nat by (destruct (colored d); lia).
  exists (f32_at d (84 + f * 50 + 12 + v * 12 + c * 4)).
  rewrite float32_at_ok by lia. split; [done|].
  cbn [position decoded]. rewrite <- Nat.add_assoc.
  rewrite gather_lookup by (try apply facet_positions_length; lia).
  unfold facet_positions, triple_at, record_start.
  generalize (f32_at d). intros p.
  destruct v as [|[|[|v]]]; [| | |lia];
    (destruct c as [|[|[|c]]]; [| | |lia]); cbn; f_equal; f_equal; lia.
Qed.

Lemma vertex_layout_witness :
  exists x,
    float32_at (triangle Byte.x00 Byte.x00 Byte.x00)
      (84 + 0 * 50 + 12 + 1 * 12 + 0 * 4) true = Ok x
    /\ position triangle_model !! (0 * 9 + 1 * 3 + 0)%nat = Some x.
Proof.
  apply (vertex_layout (triangle Byte.x00 Byte.x00 Byte.x00) triangle_model 1 0 1 0);
    [vm_compute; reflexivity|vm_compute; reflexivity|lia|lia|lia].
Defined.

(** X4.  hasColors, colors and alpha go together, and they are there exactly
    when some offset below 70 holds the marker. *)
Theorem colors_alpha_together (d : list byte) (m : ModelData) :
  parse d = Ok m ->
  (hasColors m = true <-> is_Some (colors m))
  /\ (is_Some (colors m) <-> is_Some (alpha m))
  /\ (hasColors m = true <-> exists i, (i < 70)%nat /\ marker_at d i).
Proof.
  intros [_ ->]%parse_ok_inv. unfold decoded.
  destruct (last_marker d) as [j|] eqn:Hlast;
    cbn [header_of h_hasColors header_init hasColors colors alpha].
  - apply last_marker_Some in Hlast as (Hj & Hm & _).
    repeat split; eauto.
  - pose proof (proj1 (last_marker_None d) Hlast) as Hno.
    repeat split; try (intros [? [=]]); try discriminate.
    intros (i & Hi & Hm). exfalso. now apply (Hno i).
Qed.

Lemma colors_alpha_together_witness :
  parse two_markers = Ok blue_model
  /\ (hasColors blue_model = true <-> is_Some (colors blue_model))
  /\ (is_Some (colors blue_model) <-> is_Some (alpha blue_model))
  /\ (hasColors blue_model = true <->
      exists i, (i < 70)%nat /\ marker_at two_markers i).
Proof.
  split; [vm_compute; reflexivity|].
  apply (colors_alpha_together two_markers blue_model). vm_compute; reflexivity.
Defined.

(** The marker that ends with the header, at offset 70, is not seen. *)
Example marker_at_70_unseen :
  length Edge.marker_at_70 = 134%nat
  /\ marker_at Edge.marker_at_70 70
  /\ parse Edge.marker_at_70 = Ok triangle_model.
Proof. repeat split; vm_compute; reflexivity. Qed.

(** X5.  Within a facet the three vertices carry the same color triple,
    whether it is the facet's own or the default. *)
Theorem facet_color_uniform (d : list byte) (m : ModelData) (n : Z)
    (cs : list number) (f v c : nat) :
  parse d = Ok m ->
  getUint32 d 80 true = Ok n ->
  colors m = Some cs ->
  Z.of_nat f < n -> (v < 3)%nat -> (c < 3)%nat ->
  is_Some (cs !! (f * 9 + c)%nat)
  /\ cs !! (f * 9 + v * 3 + c)%nat = cs !! (f * 9 + c)%nat.
Proof.
  intros [Hreq ->]%parse_ok_inv Hn%faces_of_count Hcs Hf Hv Hc.
  apply decoded_colors in Hcs as (j & Hj & ->).
  assert (Hlt : (f < faces_of d)%nat) by lia.
  rewrite <- Nat.add_assoc.
  rewrite !gather_lookup by (try apply facet_colors_length; lia).
  unfold facet_colors. destruct (facet_rgb d _ _ _ f) as [[r g] b].
  destruct v as [|[|[|v]]]; [| | |lia];
    (destruct c as [|[|[|c]]]; [| | |lia]); cbn; eauto.
Qed.

Lemma facet_color_uniform_witness :
  parse (gray_triangle 31 0) = Ok red_model
  /\ is_Some (f32_array [1; 0; 0; 1; 0; 0; 1; 0; 0] !! (0 * 9 + 1)%nat)
  /\ f32_array [1; 0; 0; 1; 0; 0; 1; 0; 0] !! (0 * 9 + 2 * 3 + 1)%nat
     = f32_array [1; 0; 0; 1; 0; 0; 1; 0; 0] !! (0 * 9 + 1)%nat.
Proof.
  split; [vm_compute; reflexivity|].
  apply (facet_color_uniform (gray_triangle 31 0) red_model 1 _ 0 2 1);
    [vm_compute; reflexivity|vm_compute; reflexivity|reflexivity|lia|lia|lia].
Defined.

End Returns.

(** ** Which bytes reach the model *)

Section ReadSet.
Import DataView Layout BinaryStl Samples Range.

Lemma slice_agree (d d' : list byte) (off n : nat) :
  (forall k, (off <= k < off + n)%nat -> d' !! k = d !! k) ->
  take n (drop off d') = take n (drop off d).
Proof.
  intros H. apply list_eq. intros i.
  destruct (decide (i < n)%nat).
  - rewrite !lookup_take_lt, !lookup_drop by done. apply H. lia.
  - now rewrite !lookup_take_ge by lia.
Qed.

Lemma relevant_header (c : bool) (k : nat) : (k < 79)%nat -> relevant c k = true.
Proof. intros H. unfold relevant. now rewrite decide_True. Qed.

Lemma relevant_count (c : bool) (k : nat) :
  (80 <= k < 84)%nat -> relevant c k = true.
Proof.
  intros H. unfold relevant.
  rewrite decide_False, decide_False, decide_True by lia. done.
Qed.

Lemma record_offset_mod (f r : nat) :
  (r < 50)%nat -> ((84 + f * 50 + r - 84) mod 50 = r)%nat.
Proof.
  intros H. replace (84 + f * 50 + r - 84)%nat with (r + f * 50)%nat by lia.
  rewrite Nat.Div0.mod_add. now apply Nat.mod_small.
Qed.

Lemma relevant_record (c : bool) (f r : nat) :
  (r < 48)%nat -> relevant c (84 + f * 50 + r) = true.
Proof.
  intros H. unfold relevant.
  rewrite decide_False, decide_False, decide_False by lia.
  rewrite record_offset_mod by lia. now rewrite decide_True.
Qed.

Lemma relevant_colored (f r : nat) :
  (r < 50)%nat -> relevant true (84 + f * 50 + r) = true.
Proof.
  intros H. unfold relevant.
  rewrite decide_False, decide_False, decide_False by lia.
  now case_decide.
Qed.

Lemma gather_ext (g g' : nat -> list number) (n : nat) :
  (forall f, (f < n)%nat -> g' f = g f) -> gather g' n = gather g n.
Proof.
  induction n as [|n IH]; intros H; [reflexivity|].
  rewrite !gather_S, IH, H by (intros; (apply H || idtac); lia). done.
Qed.

Variables d d' : list byte.
Hypothesis Hagree :
  forall k, (k < required (faces_of d) (colored d))%nat ->
            relevant (colored d) k = true -> d' !! k = d !! k.

Lemma uint_at_same (n off : nat) :
  (off + n <= required (faces_of d) (colored d))%nat ->
  (forall k, (off <= k < off + n)%nat -> relevant (colored d) k = true) ->
  uint_at n d' off = uint_at n d off.
Proof.
  intros Hoff Hrel. unfold uint_at. f_equal. apply slice_agree.
  intros k Hk. apply Hagree; [lia|now apply Hrel].
Qed.

Lemma req_ge : (84 <= required (faces_of d) (colored d))%nat.
Proof. apply required_ge. Qed.

Lemma faces_same : faces_of d' = faces_of d.
Proof.
  pose proof req_ge. unfold faces_of. f_equal.
  apply uint_at_same; [lia|]. intros k Hk. apply relevant_count. lia.
Qed.

Lemma marker_same (i : nat) : (i < 70)%nat -> markerb d' i = markerb d i.
Proof.
  intros Hi. pose proof req_ge. unfold markerb. apply bool_decide_ext.
  unfold marker_at. rewrite (slice_agree d d' i 6); [done|].
  intros k Hk. apply Hagree; [lia|apply relevant_header; lia].
Qed.

Lemma last_marker_same : last_marker d' = last_marker d.
Proof.
  unfold last_marker.
  assert (H : forall k, (k <= 70)%nat ->
              last_marker_below d' k = last_marker_below d k).
  { induction k as [|k IH]; intros Hk; [reflexivity|].
    cbn [last_marker_below]. rewrite marker_same, IH by lia. done. }
  now apply H.
Qed.

Lemma unit_same (off : nat) :
  (off < 79)%nat -> unit_of_byte d' off = unit_of_byte d off.
Proof.
  intros Hoff. pose proof req_ge. unfold unit_of_byte.
  rewrite uint_at_same; [done|lia|]. intros k Hk. apply relevant_header. lia.
Qed.

Lemma f32_same (f off : nat) :
  (f < faces_of d)%nat ->
  (84 + f * 50 <= off)%nat -> (off + 4 <= 84 + f * 50 + 48)%nat ->
  f32_at d' off = f32_at d off.
Proof.
  intros Hf Hlo Hhi. unfold f32_at. f_equal. apply uint_at_same.
  - destruct (faces_of d) as [|n]; [lia|]. cbn [required].
    unfold record_start, face_bytes. destruct (colored d); nia.
  - intros k Hk. replace k with (84 + f * 50 + (k - (84 + f * 50)))%nat by lia.
    apply relevant_record. lia.
Qed.

Lemma decoded_same : decoded d' = decoded d.
Proof.
  unfold decoded. rewrite faces_same, last_marker_same.
  assert (Hp : gather (facet_positions d') (faces_of d)
               = gather (facet_positions d) (faces_of d)).
  { apply gather_ext. intros f Hf. unfold facet_positions, triple_at, record_start.
    now rewrite !(f32_same f) by (done || lia). }
  assert (Hn : gather (facet_normals d') (faces_of d)
               = gather (facet_normals d) (faces_of d)).
  { apply gather_ext. intros f Hf. unfold facet_normals, triple_at, record_start.
    now rewrite !(f32_same f) by (done || lia). }
  rewrite Hp, Hn.
  destruct (last_marker d) as [j|] eqn:Hlast;
    cbn [header_of h_hasColors h_defaultR h_defaultG h_defaultB h_alpha header_init];
    [|reflexivity].
  apply last_marker_Some in Hlast as Hj. destruct Hj as (Hj & _ & _).
  rewrite !unit_same by lia. do 2 f_equal.
  apply gather_ext. intros f Hf. unfold facet_colors, facet_rgb.
  assert (Hc : colored d = true) by (unfold colored; now rewrite Hlast).
  rewrite (uint_at_same 2 (record_start f + 48)); [done| |].
  - destruct (faces_of d) as [|n]; [lia|]. cbn [required].
    unfold record_start, face_bytes. rewrite Hc. nia.
  - intros k Hk. rewrite Hc. unfold record_start in *.
    replace k with (84 + f * 50 + (k - (84 + f * 50)))%nat by lia.
    apply relevant_colored. lia.
Qed.

Lemma colored_same : colored d' = colored d.
Proof. unfold colored. now rewrite last_marker_same. Qed.

End ReadSet.

Section ReadSetTheorems.
Import DataView Layout BinaryStl Samples Range.

Lemma parse_agree (d d' : list byte) (m : ModelData) :
  parse d = Ok m ->
  (required (faces_of d) (colored d) <= length d')%nat ->
  (forall k, (k < required (faces_of d) (colored d))%nat ->
             relevant (colored d) k = true -> d' !! k = d !! k) ->
  parse d' = Ok m.
Proof.
  intros [Hreq ->]%parse_ok_inv Hlen Hagree.
  rewrite parse_spec.
  rewrite (faces_same d d' Hagree), (colored_same d d' Hagree).
  rewrite decide_True by done. f_equal. now apply decoded_same.
Qed.

(** X7.  What [parse] reads: when it returns on [d], it returns the same model
    on every buffer that is long enough and agrees with [d] on the
    relevant offsets below the bytes read.  Bytes past the last record
    read, header byte 79 and, without a marker, the color words of the
    records have no effect. *)
Theorem parse_reads_only (d d' : list byte) (m : ModelData) :
  parse d = Ok m ->
  (required (faces_of d) (colored d) <= length d')%nat ->
  (forall k, (k < required (faces_of d) (colored d))%nat ->
             relevant (colored d) k = true -> d' !! k = d !! k) ->
  parse d' = Ok m.
Proof.
  intros [Hreq ->]%parse_ok_inv Hlen Hagree.
  rewrite parse_spec.
  rewrite (faces_same d d' Hagree), (colored_same d d' Hagree).
  rewrite decide_True by done. f_equal. now apply decoded_same.
Qed.

Lemma parse_reads_only_witness :
  parse triangle_cut = Ok triangle_model
  /\ parse (triangle Byte.x20 Byte.xff Byte.xff ++ [Byte.x01; Byte.x02])
     = Ok triangle_model.
Proof.
  split; [vm_compute; reflexivity|].
  apply (parse_reads_only (triangle Byte.x20 Byte.x00 Byte.x00));
    [vm_compute; reflexivity|vm_compute; lia|].
  intros k Hk Hrel.
  change (required _ _) with 132%nat in Hk.
  rewrite !lookup_app_l by (cbn; lia).
  unfold triangle. rewrite !app_assoc.
  rewrite (lookup_app_l _ [Byte.xff; Byte.xff]) by (cbn; lia).
  rewrite (lookup_app_l _ [Byte.x00; Byte.x00]) by (cbn; lia).
  reflexivity.
Defined.

(** X8.  An extra tail changes nothing: a file followed by any bytes decodes
    as the file does. *)
Theorem trailing_bytes_ignored (d extra : list byte) (m : ModelData) :
  parse d = Ok m -> parse (d ++ extra) = Ok m.
Proof.
  intros Hp. pose proof (proj1 (parse_ok_inv d m Hp)) as Hreq.
  apply (parse_agree d (d ++ extra) m Hp).
  - rewrite length_app. lia.
  - intros k Hk _. apply lookup_app_l. lia.
Qed.

Lemma trailing_bytes_ignored_witness :
  parse (triangle Byte.x00 Byte.x00 Byte.x00 ++ replicate 7 Byte.xff)
  = Ok triangle_model.
Proof.
  apply trailing_bytes_ignored. vm_compute; reflexivity.
Defined.

End ReadSetTheorems.

(** ** Geometry and color ranges *)

Section Ranges.
Import DataView Layout BinaryStl Samples Range.

Lemma uint_at_tail (n : nat) (d : list byte) (off : nat) :
  (80 <= off)%nat -> uint_at n d off = uint_at n (drop 80 d) (off - 80).
Proof.
  intros H. unfold uint_at. rewrite drop_drop. do 3 f_equal. lia.
Qed.

(** X9.  The header has no part in the geometry: two files with the same
    bytes from offset 80 on decode to the same position and normals,
    whatever their headers hold. *)
Theorem geometry_ignores_header (d d' : list byte) (m m' : ModelData) :
  parse d = Ok m ->
  parse d' = Ok m' ->
  drop 80 d = drop 80 d' ->
  position m = position m' /\ normals m = normals m'.
Proof.
  intros [_ ->]%parse_ok_inv [_ ->]%parse_ok_inv Htail.
  assert (Hu : forall n off, (80 <= off)%nat -> uint_at n d off = uint_at n d' off)
    by (intros n off Hoff; now rewrite !(uint_at_tail n _ off), Htail).
  assert (Hf : forall off, (80 <= off)%nat -> f32_at d off = f32_at d' off)
    by (intros off Hoff; unfold f32_at; now rewrite Hu).
  assert (Hfaces : faces_of d = faces_of d') by (unfold faces_of; now rewrite Hu).
  cbn [position normals decoded]. rewrite <- Hfaces. split.
  - symmetry. apply gather_ext. intros f _.
    unfold facet_positions, triple_at, record_start.
    now rewrite !Hf by lia.
  - symmetry. apply gather_ext. intros f _.
    unfold facet_normals, triple_at, record_start.
    now rewrite !Hf by lia.
Qed.

Lemma geometry_ignores_header_witness :
  drop 80 (triangle Byte.x00 Byte.x00 Byte.x80) = drop 80 (gray_triangle 0 128)
  /\ position triangle_model = position gray_model
  /\ normals triangle_model = normals gray_model.
Proof.
  split; [reflexivity|].
  apply (geometry_ignores_header (triangle Byte.x00 Byte.x00 Byte.x80)
           (gray_triangle 0 128));
    vm_compute; reflexivity.
Defined.

Example in_unit_rejects :
  in_unit32 (Js.fround (Js.of_int 2)) = false
  /\ in_unit32 (Js.fround (Js.of_int (-1))) = false
  /\ in_unit32 S754_nan = false
  /\ in_unit64 (Js.div (Js.of_int 256) (Js.of_int 255)) = false.
Proof. repeat split; vm_compute; reflexivity. Qed.

Lemma byte_units_in_range (z : Z) :
  0 <= z < 256 ->
  in_unit32 (Js.fround (Js.div (Js.of_int z) (Js.of_int 255))) = true
  /\ in_unit64 (Js.div (Js.of_int z) (Js.of_int 255)) = true.
Proof.
  intros Hz.
  assert (Hall : forallb (fun k =>
            in_unit32 (Js.fround (Js.div (Js.of_int (Z.of_nat k)) (Js.of_int 255)))
            && in_unit64 (Js.div (Js.of_int (Z.of_nat k)) (Js.of_int 255)))
            (seq 0 256) = true) by (vm_compute; reflexivity).
  rewrite List.forallb_forall in Hall.
  specialize (Hall (Z.to_nat z)). rewrite Z2Nat.id in Hall by lia.
  apply andb_true_iff, Hall, List.in_seq. lia.
Qed.

Lemma field_units_in_range (z : Z) :
  0 <= z < 32 ->
  in_unit32 (Js.fround (Js.div (Js.of_int z) (Js.of_int 31))) = true.
Proof.
  intros Hz.
  assert (Hall : forallb (fun k =>
            in_unit32 (Js.fround (Js.div (Js.of_int (Z.of_nat k)) (Js.of_int 31))))
            (seq 0 32) = true) by (vm_compute; reflexivity).
  rewrite List.forallb_forall in Hall.
  specialize (Hall (Z.to_nat z)). rewrite Z2Nat.id in Hall by lia.
  apply Hall, List.in_seq. lia.
Qed.

Lemma field5_in_range (p sh : Z) :
  in_unit32 (Js.fround (field5 p sh)) = true.
Proof.
  unfold field5. apply field_units_in_range.
  change 31 with (Z.ones 5). apply land_mask_bounds. lia.
Qed.

Lemma unit_of_byte_in_range (d : list byte) (off : nat) :
  in_unit32 (Js.fround (unit_of_byte d off)) = true
  /\ in_unit64 (unit_of_byte d off) = true.
Proof.
  unfold unit_of_byte. apply byte_units_in_range.
  pose proof (uint_at_bounds 1 d off) as H. now change (256 ^ Z.of_nat 1) with 256 in H.
Qed.

Lemma gather_elem (g : nat -> list number) (n : nat) (x : number) :
  x ∈ gather g n -> exists f, (f < n)%nat /\ x ∈ g f.
Proof.
  induction n as [|n IH]; [intros H; inversion H|].
  rewrite gather_S, elem_of_app. intros [H|H].
  - destruct (IH H) as (f & Hf & Hx). exists f. split; [lia|done].
  - exists n. split; [lia|done].
Qed.

(** X6.  Every color component the loader stores lies between 0 and 1, and so
    does alpha. *)
Theorem colors_in_unit_range (d : list byte) (m : ModelData) :
  parse d = Ok m ->
  (forall cs x, colors m = Some cs -> x ∈ cs -> in_unit32 x = true)
  /\ (forall a, alpha m = Some a -> in_unit64 a = true).
Proof.
  intros [_ ->]%parse_ok_inv. split.
  - intros cs x Hcs Hx. apply decoded_colors in Hcs as (j & Hj & ->).
    apply gather_elem in Hx as (f & _ & Hx).
    unfold facet_colors, facet_rgb in Hx.
    destruct (Z.testbit _ 15);
      repeat (apply elem_of_app in Hx as [Hx|Hx]);
      repeat (apply elem_of_cons in Hx as [->|Hx]);
      try (now inversion Hx);
      try apply field5_in_range; apply unit_of_byte_in_range.
  - intros a. unfold decoded. cbn [alpha].
    destruct (last_marker d) as [j|];
      cbn [header_of h_hasColors h_alpha header_init]; [|discriminate].
    intros [= <-]. apply unit_of_byte_in_range.
Qed.

Lemma colors_in_unit_range_witness :
  parse two_markers = Ok blue_model
  /\ (forall cs x, colors blue_model = Some cs -> x ∈ cs -> in_unit32 x = true)
  /\ (forall a, alpha blue_model = Some a -> in_unit64 a = true).
Proof.
  split; [vm_compute; reflexivity|].
  apply (colors_in_unit_range two_markers). vm_compute; reflexivity.
Defined.

End Ranges.

(** ** The vertex count of the draw call *)

Section ExactDivision.

Lemma iter_xO_Z (n : nat) (p : positive) :
  Zpos (Nat.iter n xO p) = Zpos p * 2 ^ Z.of_nat n.
Proof.
  induction n as [|n IH]; [cbn; lia|].
  rewrite Nat.iter_succ, Pos2Z.inj_xO, IH, Nat2Z.inj_succ, Z.pow_succ_r by lia.
  lia.
Qed.

Lemma digits2_gt (p : positive) : Zpos p < 2 ^ Zpos (digits2_pos p).
Proof.
  rewrite digits2_size. pose proof (Pos.size_gt p) as H.
  apply Pos2Z.pos_lt_pos in H. now rewrite Pos2Z.inj_pow in H.
Qed.

(** The binary64 form of a positive integer of at most 53 bits. *)
Lemma of_int_pos (p : positive) :
  Zpos (digits2_pos p) <= 53 ->
  Js.of_int (Zpos p)
  = S754_finite false (Nat.iter (Z.to_nat (53 - Zpos (digits2_pos p))) xO p)
      (Zpos (digits2_pos p) - 53).
Proof.
  intros Hd. set (dp := Zpos (digits2_pos p)) in *.
  assert (0 < dp) by (subst dp; lia).
  unfold Js.of_int, binary_normalize, binary_round.
  fold dp. rewrite Z.add_0_r.
  assert (Hf : fexp 53 1024 dp = dp - 53) by (unfold fexp, emin; lia).
  rewrite Hf. unfold shl_align. rewrite Z.sub_0_r.
  destruct (dp - 53) as [|k|k] eqn:Hk; try lia.
  - replace (53 - dp) with 0 by lia. cbn [Z.to_nat Nat.iter nat_rect].
    unfold binary_round_aux, shr_fexp. cbn [Zdigits2 shr_record_of_loc].
    fold dp. rewrite Z.add_0_r, Hf. change (0 - 0) with 0.
    cbv beta iota delta [shr shr_m loc_of_shr_record round_nearest_even Zdigits2].
    fold dp. rewrite Z.add_0_r, Hf. change (0 - 0) with 0.
    reflexivity.
  - rewrite Pos_iter_nat.
    replace (Z.to_nat (53 - dp)) with (Pos.to_nat k) by lia.
    set (n := Pos.to_nat k).
    assert (Hn : Z.of_nat n = 53 - dp) by (subst n; rewrite positive_nat_Z; lia).
    set (mz := Nat.iter n xO p).
    assert (Hdz : Zpos (digits2_pos mz) = 53)
      by (subst mz; rewrite digits2_shift; fold dp; lia).
    assert (Hf' : fexp 53 1024 (53 + Z.neg k) = Z.neg k) by (unfold fexp, emin; lia).
    unfold binary_round_aux, shr_fexp. cbn [Zdigits2 shr_record_of_loc].
    rewrite Hdz, Hf', Z.sub_diag.
    cbn [shr shr_m loc_of_shr_record round_nearest_even Zdigits2].
    rewrite Hdz, Hf', Z.sub_diag. cbn [shr shr_m].
    replace (Z.neg k <=? 1024 - 53) with true by (symmetry; apply Z.leb_le; lia).
    reflexivity.
Qed.

Lemma digits2_mono (p q : positive) :
  (p <= q)%positive -> Zpos (digits2_pos p) <= Zpos (digits2_pos q).
Proof.
  intros H. apply digits2_le. pose proof (digits2_gt q). lia.
Qed.

Lemma digits2_mul (p q : positive) :
  Zpos (digits2_pos (p * q)) <= Zpos (digits2_pos p) + Zpos (digits2_pos q).
Proof.
  change (Zpos (digits2_pos p) + Zpos (digits2_pos q))
    with (Zpos (digits2_pos p + digits2_pos q)).
  apply digits2_le. rewrite Pos2Z.inj_add, Z.pow_add_r by lia.
  pose proof (digits2_gt p). pose proof (digits2_gt q).
  rewrite Pos2Z.inj_mul. nia.
Qed.

Lemma div_eucl_exact (x y q : Z) :
  0 < y -> x = q * y -> Z.div_eucl x y = (q, 0).
Proof.
  intros Hy Hx. pose proof (Z_div_mod x y ltac:(lia)) as H.
  destruct (Z.div_eucl x y) as [q' r']. destruct H as [H Hr].
  assert (q' = q) by nia. subst q'. f_equal. lia.
Qed.

Lemma new_location_exact (n : Z) : new_location n 0 = loc_Exact.
Proof.
  unfold new_location, new_location_even, new_location_odd.
  now destruct (Z.even n).
Qed.

(** Dividing a multiple of b by b is exact as long as the multiple fits
    in 53 bits. *)
Lemma div_exact_pos (q b : positive) :
  Zpos (digits2_pos (q * b)) <= 53 ->
  Js.div (Js.of_int (Zpos (q * b))) (Js.of_int (Zpos b)) = Js.of_int (Zpos q).
Proof.
  intros Hda.
  pose proof (digits2_mono q (q * b) ltac:(nia)) as Hqa.
  pose proof (digits2_mono b (q * b) ltac:(nia)) as Hba.
  pose proof (digits2_mul q b) as Hmul.
  set (a := (q * b)%positive) in *.
  set (da := Zpos (digits2_pos a)) in *.
  set (db := Zpos (digits2_pos b)) in *.
  set (dq := Zpos (digits2_pos q)) in *.
  assert (0 < dq /\ 0 < db /\ 0 < da) as (Hq0 & Hb0 & Ha0) by (subst dq db da; lia).
  rewrite !of_int_pos by (fold da db dq; lia). fold da db dq.
  set (ma := Nat.iter (Z.to_nat (53 - da)) xO a).
  set (mb := Nat.iter (Z.to_nat (53 - db)) xO b).
  assert (Hdma : Zpos (digits2_pos ma) = 53)
    by (subst ma; rewrite digits2_shift; fold da; lia).
  assert (Hdmb : Zpos (digits2_pos mb) = 53)
    by (subst mb; rewrite digits2_shift; fold db; lia).
  unfold Js.div, SFdiv, SFdiv_core_binary. cbn [xorb Zdigits2].
  rewrite Hdma, Hdmb.
  replace (fexp 53 1024 (53 + (da - 53) - (53 + (db - 53)))) with (da - db - 53)
    by (unfold fexp, emin; lia).
  rewrite Z.min_l by lia.
  replace (da - 53 - (db - 53) - (da - db - 53)) with 53 by lia.
  set (tQ := Z.to_nat (53 - da + db)).
  rewrite (div_eucl_exact _ _ (Zpos (Nat.iter tQ xO q))).
  2: lia.
  2:{ rewrite Z.shiftl_mul_pow2 by lia. subst ma mb tQ. rewrite !iter_xO_Z.
      rewrite !Z2Nat.id by lia. subst a. rewrite Pos2Z.inj_mul.
      replace (53 - da + db) with ((53 - da) + 53 - (53 - db)) by lia.
      assert (E : 2 ^ (53 - da) * 2 ^ 53
                  = 2 ^ (53 - da + 53 - (53 - db)) * 2 ^ (53 - db)).
      { rewrite <- !Z.pow_add_r by lia. f_equal. lia. }
      nia. }
  rewrite new_location_exact.
  set (mQ := Nat.iter tQ xO q).
  assert (HdQ : Zpos (digits2_pos mQ) = dq + (53 - da + db))
    by (subst mQ tQ; rewrite digits2_shift; fold dq; lia).
  assert (Hfe : fexp 53 1024 (dq + (53 - da + db) + (da - db - 53)) = dq - 53)
    by (unfold fexp, emin; lia).
  unfold binary_round_aux, shr_fexp. cbn [Zdigits2 shr_record_of_loc].
  rewrite HdQ, Hfe.
  assert (Hfq : fexp 53 1024 (53 + (dq - 53)) = dq - 53) by (unfold fexp, emin; lia).
  destruct (dq - 53 - (da - db - 53)) as [|k|k] eqn:Hk; try lia.
  - cbv beta iota delta [shr shr_m loc_of_shr_record round_nearest_even Zdigits2].
    replace (da - db - 53) with (dq - 53) by lia.
    assert (HtQ : tQ = Z.to_nat (53 - dq)) by (subst tQ; lia).
    assert (HdQ' : Zpos (digits2_pos mQ) = 53) by lia.
    rewrite HdQ', Hfq, Z.sub_diag.
    replace (dq - 53 <=? 1024 - 53) with true by (symmetry; apply Z.leb_le; lia).
    subst mQ. now rewrite HtQ.
  - cbn [shr]. rewrite iter_pos_nat.
    set (tq := Z.to_nat (53 - dq)).
    assert (HtQ : tQ = (Pos.to_nat k + tq)%nat) by (subst tQ tq; lia).
    subst mQ. rewrite HtQ, Nat.iter_add, shr_shift.
    replace (da - db - 53 + Z.pos k) with (dq - 53) by lia.
    cbv beta iota delta [shr_m loc_of_shr_record round_nearest_even Zdigits2].
    assert (Hdq' : Zpos (digits2_pos (Nat.iter tq xO q)) = 53)
      by (rewrite digits2_shift; fold dq; subst tq; lia).
    rewrite Hdq', Hfq, Z.sub_diag.
    cbv beta iota delta [shr shr_m].
    replace (dq - 53 <=? 1024 - 53) with true by (symmetry; apply Z.leb_le; lia).
    reflexivity.
Qed.

End ExactDivision.

Section DrawCall.
Import DataView Layout BinaryStl Samples Renderer.

(** X10.  The draw call gets whole vertices: [data.position.length / 3], a
    floating-point division, is exactly three times the facet count. *)
Theorem draw_count_exact (d : list byte) (m : ModelData) (n : Z) :
  parse d = Ok m ->
  getUint32 d 80 true = Ok n ->
  vertexCount m = Js.of_int (3 * n).
Proof.
  intros [_ ->]%parse_ok_inv Hcount.
  pose proof (faces_of_count d n Hcount) as Hf.
  destruct (face_count_inv d n Hcount) as [_ Hn].
  pose proof (uint_at_bounds 4 d 80) as Hb. rewrite <- Hn in Hb.
  change (256 ^ Z.of_nat 4) with 4294967296 in Hb.
  unfold vertexCount. cbn [position decoded].
  rewrite gather_length by apply facet_positions_length.
  destruct n as [|p|p]; [|clear Hn|lia].
  { replace (faces_of d) with 0%nat by lia. reflexivity. }
  replace (Z.of_nat (faces_of d * 3 * 3)) with (Zpos (p * 3 * 3)) by lia.
  replace (3 * Z.pos p) with (Zpos (p * 3)) by lia.
  apply div_exact_pos. apply (digits2_le _ 53).
  change (2 ^ Z.pos 53) with 9007199254740992. lia.
Qed.

Lemma draw_count_exact_witness :
  vertexCount triangle_model = Js.of_int (3 * 1).
Proof.
  apply (draw_count_exact (triangle Byte.x00 Byte.x00 Byte.x00));
    vm_compute; reflexivity.
Defined.

End DrawCall.

(** ** The arrays [parse] returns are its own *)

Section Ownership.
Import Heap.

(** [parse_sim] with the returned locations: each array is an object made
    during the call, and no two of them are the same object. *)
Lemma parse_sim_owned (σ0 : heap) (data : loc) (bs : list byte) :
  σ0 !! data = Some (ArrayBuffer bs) ->
  sim σ0 σ0 (parse data) (BinaryStl.parse bs)
    (fun σ' r m =>
       σ0 !! r_position r = None /\ σ0 !! r_normals r = None
       /\ r_position r <> r_normals r
       /\ forall l, r_colors r = Some l ->
            σ0 !! l = None /\ l <> r_position r /\ l <> r_normals r).
Proof.
  intros Hdata.
  unfold parse, BinaryStl.parse, getUint32.
  pose proof (preserved_refl σ0) as Hp.
  eapply sim_bind; [now apply (sim_get σ0 data bs Hdata)|].
  intros σ f faces Hp0 [-> ->]. cbn zeta.
  eapply sim_bind; [now apply (scan_header_sim σ0 data bs Hdata)|].
  intros σ1 hh h Hq1 (Hhc & Hr & Hg & Hb & Ha & Hcol). cbn zeta.
  destruct (new_run σ0 σ1 (Z.to_nat faces * 3 * 3) Hq1) as (E1 & Hq2 & Ho1 & Hn1).
  eapply sim_step; [exact E1|].
  set (l1 := fresh (dom σ1)) in *.
  set (σ2 := <[l1 := Float32Array (Js.Float32Array (Z.to_nat faces * 3 * 3))]> σ1) in *.
  destruct (new_run σ0 σ2 (Z.to_nat faces * 3 * 3) Hq2) as (E2 & Hq3 & Ho2 & Hn2).
  eapply sim_step; [exact E2|].
  set (l2 := fresh (dom σ2)) in *.
  set (σ3 := <[l2 := Float32Array (Js.Float32Array (Z.to_nat faces * 3 * 3))]> σ2) in *.
  assert (H12 : l1 <> l2) by (apply (owns_distinct σ0 σ2 l1 l2 _ Ho1 Hn2)).
  rewrite Hr, Hg, Hb, Ha, Hhc.
  set (a := {| a_vertices := l1; a_normals := l2; a_colors := h_colors hh |}).
  eapply sim_bind.
  - apply (sim_for_range σ0 (fun σ' c m => holds σ0 σ' a c m)); [|exact Hq3|].
    + intros i σ4 c m Hq4 Hh4. now apply (face_step_sim σ0 data bs Hdata).
    + split; [|reflexivity].
      cbn [BinaryStl.vertices BinaryStl.m_normals BinaryStl.m_colors].
      split; [now apply owns_other|]. split; [exact Ho2|]. split; [exact H12|].
      cbn [a_colors a].
      destruct (h_colors hh) as [l|], (BinaryStl.h_colors h) as [es|]; try done.
      assert (l <> l1) by (apply (owns_distinct σ0 σ1 l l1 _ Hcol Hn1)).
      assert (Hl2 : owns σ0 σ2 l es) by now apply owns_other.
      assert (l <> l2) by (apply (owns_distinct σ0 σ2 l l2 _ Hl2 Hn2)).
      split; [now apply owns_other|done].
  - intros σ4 c m Hq4 [(Hv & Hn & Hvn & Hc) _]. apply sim_ret; [done|].
    cbn [r_position r_normals r_colors a_vertices a_normals a_colors a] in *.
    split; [apply Hv|]. split; [apply Hn|]. split; [done|].
    intros l Hl. destruct (BinaryStl.h_hasColors h); [|discriminate].
    destruct (h_colors hh) as [l'|]; [|discriminate]. injection Hl as ->.
    destruct (BinaryStl.m_colors m); [|done].
    destruct Hc as ((_ & H0) & Hcv & Hcn). done.
Qed.

(** X11.  The arrays of the returned object are new: none of them existed
    before the call, so none is the input buffer or shared with a caller,
    and position, normals and colors are three different objects. *)
Theorem parse_arrays_fresh (σ σ' : heap) (data : loc) (bs : list byte)
    (r : model) :
  σ !! data = Some (ArrayBuffer bs) ->
  parse data σ = Some (σ', Ok r) ->
  σ !! r_position r = None /\ σ !! r_normals r = None
  /\ r_position r <> r_normals r
  /\ r_position r <> data /\ r_normals r <> data
  /\ forall l, r_colors r = Some l ->
       σ !! l = None /\ l <> r_position r /\ l <> r_normals r /\ l <> data.
Proof.
  intros Hdata Hrun.
  destruct (parse_sim_owned σ data bs Hdata) as (σ1 & r1 & E & _ & Hagree).
  rewrite Hrun in E. injection E as <- <-.
  destruct (BinaryStl.parse bs) as [m|]; [|done]. cbn in Hagree.
  destruct Hagree as (Hp & Hn & Hpn & Hc).
  split; [done|]. split; [done|]. split; [done|].
  split; [intros E; rewrite E in Hp; congruence|].
  split; [intros E; rewrite E in Hn; congruence|].
  intros l Hl. destruct (Hc l Hl) as (H0 & H1 & H2).
  repeat (split; [done|]). intros ->. congruence.
Qed.

Lemma parse_arrays_fresh_witness :
  exists σ' r,
    parse 3%nat Samples.heap_b = Some (σ', Ok r)
    /\ Samples.heap_b !! r_position r = None
    /\ Samples.heap_b !! r_normals r = None
    /\ r_position r <> r_normals r
    /\ r_position r <> 3%nat /\ r_normals r <> 3%nat.
Proof.
  destruct (parse 3%nat Samples.heap_b) as [[σ' [r|]]|] eqn:E;
    [|revert E; vm_compute; discriminate..].
  exists σ', r. split; [reflexivity|].
  destruct (parse_arrays_fresh Samples.heap_b σ' 3%nat
              (Samples.triangle Byte.x00 Byte.x00 Byte.x00) r
              ltac:(vm_compute; reflexivity) E) as (H1 & H2 & H3 & H4 & H5 & _).
  repeat split; assumption.
Defined.

End Ownership.
